(** * Survey reader: extraction, identifier ordering, schema and rows

    A shallow embedding of [main.py]: [natural_sort_key],
    [extract_json_from_text], [process_image_with_llm] and [process_pdf],
    with the properties of the schema inference and answer reconciliation
    pipeline stated over them.

    Conventions of the embedding.
    - A Python [str] is a [string]; each character stands for the code
      point of the same number, so texts range over the code points
      0..255.
    - A Python exception is a value of [exn]; a computation that may raise
      returns a [pyresult].  A [try]/[except] is a [match] on that result.
    - Calls to [logger] append a record to a log that is threaded through
      [extract_json_from_text] and [process_image_with_llm].
    - The rasterizer, the model client and the CSV writer are outside the
      program: [process_pdf] takes, page by page, what the client answered
      and returns the header and the rows it hands to [csv.writer]. *)

From Stdlib Require Import String Ascii List ZArith NArith Bool Arith Lia.
From Stdlib Require Import OrderedTypeEx Sorted Permutation.
Import ListNotations.
Open Scope string_scope.
Open Scope list_scope.

(** ** Python results and exceptions *)

Inductive exn : Type :=
| JSONDecodeError (msg : string)
| ValueError (msg : string)
| TypeError (msg : string)
| AttributeError (msg : string)
| UnboundLocalError (msg : string)
| RecursionError
| OtherException (msg : string).

(** [str(e)] as the f-strings of the log messages print it. *)
Definition exn_str (e : exn) : string :=
  match e with
  | JSONDecodeError m | ValueError m | TypeError m | AttributeError m
  | UnboundLocalError m | OtherException m => m
  | RecursionError => "maximum recursion depth exceeded"
  end.

Inductive pyresult (A : Type) : Type :=
| Ok (a : A)
| Raise (e : exn).
Arguments Ok {A} a.
Arguments Raise {A} e.

Definition pybind {A B : Type} (r : pyresult A) (k : A -> pyresult B) : pyresult B :=
  match r with
  | Ok a => k a
  | Raise e => Raise e
  end.

Declare Scope py_scope.
Delimit Scope py_scope with py.
Notation "x <- c ;; k" := (pybind c (fun x => k))
  (at level 61, c at next level, right associativity) : py_scope.
Notation "' p <- c ;; k" := (pybind c (fun x => let 'p := x in k))
  (at level 61, p pattern, c at next level, right associativity) : py_scope.

(** ** Characters and texts *)

Definition code (c : ascii) : nat := nat_of_ascii c.

(** The characters [\d] matches in a [str] pattern: the decimal digits.
    Below code point 256 these are ['0'] to ['9']. *)
Definition re_digit (c : ascii) : bool :=
  Nat.leb 48 (code c) && Nat.leb (code c) 57.

(** The characters for which [str.isdigit] holds.  Below code point 256
    these are the decimal digits and the superscripts two, three and one
    (178, 179, 185), which [int] refuses. *)
Definition char_isdigit (c : ascii) : bool :=
  re_digit c || Nat.eqb (code c) 178 || Nat.eqb (code c) 179 || Nat.eqb (code c) 185.

Fixpoint forall_chars (p : ascii -> bool) (s : string) : bool :=
  match s with
  | EmptyString => true
  | String c s' => p c && forall_chars p s'
  end.

Fixpoint exists_char (p : ascii -> bool) (s : string) : bool :=
  match s with
  | EmptyString => false
  | String c s' => p c || exists_char p s'
  end.

(** [s.isdigit()]: at least one character, and all of them digits. *)
Definition str_isdigit (s : string) : bool :=
  match s with
  | EmptyString => false
  | _ => forall_chars char_isdigit s
  end.

Definition digit_value (c : ascii) : Z := Z.of_nat (code c - 48).

Fixpoint int_of_digits (acc : Z) (s : string) : Z :=
  match s with
  | EmptyString => acc
  | String c s' => int_of_digits (10 * acc + digit_value c) s'
  end.

(** [sys.get_int_max_str_digits()], at its default. *)
Definition int_max_str_digits : nat := 4300.

(** [int(s)] on a text for which [s.isdigit()] holds: the number it
    writes when its characters are decimal digits, [ValueError] when one
    of them is a superscript digit or when there are more digits than
    [int_max_str_digits]. *)
Definition py_int (s : string) : pyresult Z :=
  if forall_chars re_digit s then
    if Nat.ltb int_max_str_digits (String.length s) then
      Raise (ValueError "Exceeds the limit (4300 digits) for integer string conversion")
    else Ok (int_of_digits 0 s)
  else Raise (ValueError ("invalid literal for int() with base 10: " ++ s)).

Definition lbrace : ascii := "{"%char.
Definition rbrace : ascii := "}"%char.
Definition is_lbrace (c : ascii) : bool := Ascii.eqb c lbrace.
Definition is_rbrace (c : ascii) : bool := Ascii.eqb c rbrace.

(** ** [re.search(r'(\{.*\})', text, re.DOTALL)]

    [dot_star_rbrace s] matches [.*\}] at the start of [s]: the star is
    greedy and, under [DOTALL], the dot takes any character, so the match
    runs to the last ['}'] of [s]. *)
Fixpoint dot_star_rbrace (s : string) : option string :=
  match s with
  | EmptyString => None
  | String c s' =>
      match dot_star_rbrace s' with
      | Some m => Some (String c m)
      | None => if is_rbrace c then Some (String c EmptyString) else None
      end
  end.

(** The pattern tried at the start of [s]. *)
Definition match_braces_here (s : string) : option string :=
  match s with
  | EmptyString => None
  | String c s' =>
      if is_lbrace c then
        match dot_star_rbrace s' with
        | Some m => Some (String c m)
        | None => None
        end
      else None
  end.

(** [search] tries the pattern at each position from the left and returns
    group 1 of the first match. *)
Fixpoint re_search_braces (text : string) : option string :=
  match match_braces_here text with
  | Some m => Some m
  | None =>
      match text with
      | EmptyString => None
      | String _ rest => re_search_braces rest
      end
  end.

(** ** Values of [json.loads] and dictionaries

    A [dict] keeps its keys in insertion order and holds each key once. *)

Definition dict (V : Type) : Type := list (string * V).

Fixpoint dict_get {V : Type} (d : dict V) (k : string) : option V :=
  match d with
  | [] => None
  | (k', v) :: d' => if String.eqb k' k then Some v else dict_get d' k
  end.

(** [d[k] = v]: in place when [k] is a key of [d], at the end otherwise. *)
Fixpoint dict_set {V : Type} (d : dict V) (k : string) (v : V) : dict V :=
  match d with
  | [] => [(k, v)]
  | (k', v') :: d' =>
      if String.eqb k' k then (k', v) :: d' else (k', v') :: dict_set d' k v
  end.

(** [d.update(other)] for a mapping [other], and [dict(pairs)]. *)
Definition dict_update {V : Type} (d other : dict V) : dict V :=
  fold_left (fun acc kv => dict_set acc (fst kv) (snd kv)) other d.

Definition dict_of_pairs {V : Type} (pairs : list (string * V)) : dict V :=
  dict_update [] pairs.

Definition dict_keys {V : Type} (d : dict V) : list string := map fst d.

(** The float a JSON literal denotes: Python rounds the decimal
    [digits * 10 ^ exp] to binary64. *)
Inductive pyfloat : Type :=
| FDec (neg : bool) (digits : Z) (exp : Z)
| FInf (neg : bool)
| FNaN.

#[warnings="-register-all"]
Inductive json : Type :=
| JNull
| JBool (b : bool)
| JInt (z : Z)
| JFloat (f : pyfloat)
| JStr (s : string)
| JArr (items : list json)
| JObj (d : dict json).

(** A decimal rounds to [0.0] when it is at most [2 ^ -1075], half the
    least subnormal. *)
Definition float_is_zero (f : pyfloat) : bool :=
  match f with
  | FDec _ m e =>
      (m =? 0)%Z
      || ((e <? 0)%Z && (m * 2 ^ 1075 <=? 10 ^ (- e))%Z)
  | FInf _ | FNaN => false
  end.

(** [bool(v)], the test of [if json_data:]. *)
Definition truthy (v : json) : bool :=
  match v with
  | JNull => false
  | JBool b => b
  | JInt z => negb (z =? 0)%Z
  | JFloat f => negb (float_is_zero f)
  | JStr s => negb (String.eqb s "")
  | JArr items => match items with [] => false | _ => true end
  | JObj d => match d with [] => false | _ => true end
  end.

(** ** [json.loads]

    The decoder of the [json] module, as its scanner reads a text: the
    JSON grammar with Python's additions ([NaN], [Infinity],
    [-Infinity]), strict strings, the last value of a repeated key, and
    [ValueError] for an integer of more than [int_max_str_digits] digits.
    The [msg] of a [JSONDecodeError] is given without its position.  A
    [\uXXXX] escape above code point 255 has no character here and is
    reported as [OtherException]. *)

Definition dquote : ascii := ascii_of_nat 34.
Definition backslash : ascii := ascii_of_nat 92.

Definition is_ws (c : ascii) : bool :=
  Nat.eqb (code c) 32 || Nat.eqb (code c) 9 || Nat.eqb (code c) 10 || Nat.eqb (code c) 13.

Fixpoint skip_ws (s : string) : string :=
  match s with
  | EmptyString => EmptyString
  | String c s' => if is_ws c then skip_ws s' else s
  end.

(** [strip_prefix p s] is the rest of [s] after [p], when [s] starts with [p]. *)
Fixpoint strip_prefix (p s : string) : option string :=
  match p, s with
  | EmptyString, _ => Some s
  | String a p', String b s' => if Ascii.eqb a b then strip_prefix p' s' else None
  | String _ _, EmptyString => None
  end.

Fixpoint span_digits (s : string) : string * string :=
  match s with
  | EmptyString => (EmptyString, EmptyString)
  | String c s' =>
      if re_digit c then let (d, r) := span_digits s' in (String c d, r)
      else (EmptyString, s)
  end.

Definition hex_value (c : ascii) : option nat :=
  let n := code c in
  if Nat.leb 48 n && Nat.leb n 57 then Some (n - 48)
  else if Nat.leb 65 n && Nat.leb n 70 then Some (n - 55)
  else if Nat.leb 97 n && Nat.leb n 102 then Some (n - 87)
  else None.

Definition hex4 (a b c d : ascii) : option nat :=
  match hex_value a, hex_value b, hex_value c, hex_value d with
  | Some x, Some y, Some z, Some w => Some (((x * 16 + y) * 16 + z) * 16 + w)
  | _, _, _, _ => None
  end.

Definition simple_escape (c : ascii) : option ascii :=
  if Ascii.eqb c dquote then Some dquote
  else if Ascii.eqb c backslash then Some backslash
  else if Ascii.eqb c "/" then Some "/"%char
  else if Ascii.eqb c "b" then Some (ascii_of_nat 8)
  else if Ascii.eqb c "f" then Some (ascii_of_nat 12)
  else if Ascii.eqb c "n" then Some (ascii_of_nat 10)
  else if Ascii.eqb c "r" then Some (ascii_of_nat 13)
  else if Ascii.eqb c "t" then Some (ascii_of_nat 9)
  else None.

(** [scanstring], from the character after the opening quote. *)
Fixpoint scanstring (s : string) : pyresult (string * string) :=
  match s with
  | EmptyString => Raise (JSONDecodeError "Unterminated string starting at")
  | String c s' =>
      if Ascii.eqb c dquote then Ok (EmptyString, s')
      else if Ascii.eqb c backslash then
        match s' with
        | EmptyString => Raise (JSONDecodeError "Unterminated string starting at")
        | String e s'' =>
            if Ascii.eqb e "u" then
              match s'' with
              | String h1 (String h2 (String h3 (String h4 r))) =>
                  match hex4 h1 h2 h3 h4 with
                  | Some n =>
                      if Nat.ltb n 256 then
                        match scanstring r with
                        | Ok (str, rest) => Ok (String (ascii_of_nat n) str, rest)
                        | Raise x => Raise x
                        end
                      else Raise (OtherException "code point above 255")
                  | None => Raise (JSONDecodeError "Invalid \uXXXX escape")
                  end
              | _ => Raise (JSONDecodeError "Invalid \uXXXX escape")
              end
            else
              match simple_escape e with
              | Some x =>
                  match scanstring s'' with
                  | Ok (str, rest) => Ok (String x str, rest)
                  | Raise y => Raise y
                  end
              | None => Raise (JSONDecodeError "Invalid \escape")
              end
        end
      else if Nat.ltb (code c) 32 then
        Raise (JSONDecodeError "Invalid control character at")
      else
        match scanstring s' with
        | Ok (str, rest) => Ok (String c str, rest)
        | Raise x => Raise x
        end
  end.

(** What [NUMBER_RE] matches at the start of a text: sign, integer part,
    fraction and exponent, and the rest of the text. *)
Record number_match : Type := {
  nm_neg : bool;
  nm_int : string;
  nm_frac : option string;
  nm_exp : option (bool * string);
  nm_rest : string
}.

Definition match_frac (s : string) : option string * string :=
  match s with
  | String c s' =>
      if Ascii.eqb c "." then
        match span_digits s' with
        | (EmptyString, _) => (None, s)
        | (d, r) => (Some d, r)
        end
      else (None, s)
  | EmptyString => (None, s)
  end.

Definition match_exp (s : string) : option (bool * string) * string :=
  match s with
  | String c s' =>
      if Ascii.eqb c "e" || Ascii.eqb c "E" then
        let '(neg, s1) :=
          match s' with
          | String g s'' =>
              if Ascii.eqb g "-" then (true, s'')
              else if Ascii.eqb g "+" then (false, s'')
              else (false, s')
          | EmptyString => (false, s')
          end in
        match span_digits s1 with
        | (EmptyString, _) => (None, s)
        | (d, r) => (Some (neg, d), r)
        end
      else (None, s)
  | EmptyString => (None, s)
  end.

(** The fraction and the exponent, after the integer part [int_part]. *)
Definition match_tail (neg : bool) (int_part s : string) : number_match :=
  let '(frac, s1) := match_frac s in
  let '(exp, s2) := match_exp s1 in
  {| nm_neg := neg; nm_int := int_part; nm_frac := frac;
     nm_exp := exp; nm_rest := s2 |}.

(** The integer part, [0] or a digit from 1 to 9 and the digits after
    it, and what follows. *)
Definition match_unsigned (neg : bool) (s : string) : option number_match :=
  match s with
  | String c s' =>
      if re_digit c then
        if Ascii.eqb c "0" then Some (match_tail neg (String c EmptyString) s')
        else
          let (d, r) := span_digits s' in
          Some (match_tail neg (String c d) r)
      else None
  | EmptyString => None
  end.

Definition match_number (s : string) : option number_match :=
  match s with
  | String c s' =>
      if Ascii.eqb c "-" then match_unsigned true s' else match_unsigned false s
  | EmptyString => None
  end.

Definition signed (neg : bool) (z : Z) : Z := if neg then (- z)%Z else z.

(** [int(integer)] when the literal has neither fraction nor exponent,
    [float(integer + frac + exp)] otherwise. *)
Definition number_value (m : number_match) : pyresult json :=
  match nm_frac m, nm_exp m with
  | None, None =>
      match py_int (nm_int m) with
      | Ok z => Ok (JInt (signed (nm_neg m) z))
      | Raise e => Raise e
      end
  | frac, exp =>
      let f := match frac with Some d => d | None => EmptyString end in
      let e := match exp with
               | Some (neg, d) => signed neg (int_of_digits 0 d)
               | None => 0%Z
               end in
      Ok (JFloat (FDec (nm_neg m) (int_of_digits 0 (nm_int m ++ f))
                       (e - Z.of_nat (String.length f))))
  end.

Definition expecting_value : exn := JSONDecodeError "Expecting value".
Definition expecting_name : exn :=
  JSONDecodeError "Expecting property name enclosed in double quotes".
Definition expecting_comma : exn := JSONDecodeError "Expecting ',' delimiter".
Definition expecting_colon : exn := JSONDecodeError "Expecting ':' delimiter".

(** The literals and numbers of [scan_once]. *)
Definition scan_atom (s : string) : pyresult (json * string) :=
  match strip_prefix "null" s with
  | Some r => Ok (JNull, r)
  | None =>
  match strip_prefix "true" s with
  | Some r => Ok (JBool true, r)
  | None =>
  match strip_prefix "false" s with
  | Some r => Ok (JBool false, r)
  | None =>
  match match_number s with
  | Some m =>
      match number_value m with
      | Ok v => Ok (v, nm_rest m)
      | Raise e => Raise e
      end
  | None =>
  match strip_prefix "NaN" s with
  | Some r => Ok (JFloat FNaN, r)
  | None =>
  match strip_prefix "Infinity" s with
  | Some r => Ok (JFloat (FInf false), r)
  | None =>
  match strip_prefix "-Infinity" s with
  | Some r => Ok (JFloat (FInf true), r)
  | None => Raise expecting_value
  end end end end end end end.

(** [scan_once], [JSONObject] and [JSONArray].  [fuel] bounds the depth of
    the calls; a call that runs out of it raises [RecursionError].
    [json_loads] gives more than a text can use
    ([json_loads_no_recursion]): the limit CPython puts on the depth of
    nesting is not modelled. *)
Fixpoint scan_once (fuel : nat) (s : string) : pyresult (json * string) :=
  match fuel with
  | O => Raise RecursionError
  | S fuel' =>
      match s with
      | EmptyString => Raise expecting_value
      | String c r =>
          if Ascii.eqb c dquote then
            match scanstring r with
            | Ok (str, rest) => Ok (JStr str, rest)
            | Raise e => Raise e
            end
          else if is_lbrace c then
            match skip_ws r with
            | String c1 r1 =>
                if is_rbrace c1 then Ok (JObj [], r1)
                else if Ascii.eqb c1 dquote then
                  match object_pairs fuel' r1 [] with
                  | Ok (pairs, rest) => Ok (JObj (dict_of_pairs pairs), rest)
                  | Raise e => Raise e
                  end
                else Raise expecting_name
            | EmptyString => Raise expecting_name
            end
          else if Ascii.eqb c "[" then
            match skip_ws r with
            | String c1 r1 =>
                if Ascii.eqb c1 "]" then Ok (JArr [], r1)
                else
                  match array_items fuel' (String c1 r1) [] with
                  | Ok (items, rest) => Ok (JArr items, rest)
                  | Raise e => Raise e
                  end
            | EmptyString => Raise expecting_value
            end
          else scan_atom s
      end
  end

with object_pairs (fuel : nat) (s : string) (pairs : list (string * json))
  : pyresult (list (string * json) * string) :=
  match fuel with
  | O => Raise RecursionError
  | S fuel' =>
      match scanstring s with
      | Raise e => Raise e
      | Ok (key, s1) =>
          match skip_ws s1 with
          | String c s2 =>
              if Ascii.eqb c ":" then
                match scan_once fuel' (skip_ws s2) with
                | Raise e => Raise e
                | Ok (value, s3) =>
                    let pairs' := pairs ++ [(key, value)] in
                    match skip_ws s3 with
                    | String d s4 =>
                        if is_rbrace d then Ok (pairs', s4)
                        else if Ascii.eqb d "," then
                          match skip_ws s4 with
                          | String q s5 =>
                              if Ascii.eqb q dquote then object_pairs fuel' s5 pairs'
                              else Raise expecting_name
                          | EmptyString => Raise expecting_name
                          end
                        else Raise expecting_comma
                    | EmptyString => Raise expecting_comma
                    end
                end
              else Raise expecting_colon
          | EmptyString => Raise expecting_colon
          end
      end
  end

with array_items (fuel : nat) (s : string) (items : list json)
  : pyresult (list json * string) :=
  match fuel with
  | O => Raise RecursionError
  | S fuel' =>
      match scan_once fuel' s with
      | Raise e => Raise e
      | Ok (value, s1) =>
          let items' := items ++ [value] in
          match skip_ws s1 with
          | String d s2 =>
              if Ascii.eqb d "]" then Ok (items', s2)
              else if Ascii.eqb d "," then array_items fuel' (skip_ws s2) items'
              else Raise expecting_comma
          | EmptyString => Raise expecting_comma
          end
      end
  end.

(** [json.loads(s)]: one value between optional white space, and nothing
    after it. *)
Definition json_loads (s : string) : pyresult json :=
  match scan_once (2 * String.length s + 2) (skip_ws s) with
  | Raise e => Raise e
  | Ok (v, rest) =>
      match skip_ws rest with
      | EmptyString => Ok v
      | String _ _ => Raise (JSONDecodeError "Extra data")
      end
  end.

(** ** Logging

    A computation that logs takes the records written so far and returns
    its result with the records extended.  The records are the calls made
    to [logger], whatever level the handlers let through. *)

Inductive level : Type := DEBUG | INFO | ERROR.

Definition record : Type := (level * string)%type.

Definition logged (A : Type) : Type := list record -> pyresult A * list record.

Definition ret {A : Type} (a : A) : logged A := fun log => (Ok a, log).

Definition lift {A : Type} (r : pyresult A) : logged A := fun log => (r, log).

Definition bind {A B : Type} (c : logged A) (k : A -> logged B) : logged B :=
  fun log =>
    match c log with
    | (Ok a, log') => k a log'
    | (Raise e, log') => (Raise e, log')
    end.

Definition logger_call (lv : level) (msg : string) : logged unit :=
  fun log => (Ok tt, log ++ [(lv, msg)]).

Definition logger_debug := logger_call DEBUG.
Definition logger_info := logger_call INFO.
Definition logger_error := logger_call ERROR.

(** [try: body except ...: handler]; every exception of [exn] is an
    [Exception], so a last clause [except Exception] takes what the
    clauses before it left. *)
Definition try_except {A : Type} (body : logged A) (handler : exn -> logged A)
  : logged A :=
  fun log =>
    match body log with
    | (Ok a, log') => (Ok a, log')
    | (Raise e, log') => handler e log'
    end.

Declare Scope logged_scope.
Delimit Scope logged_scope with logged.
Notation "x <- c ;; k" := (bind c (fun x => k))
  (at level 61, c at next level, right associativity) : logged_scope.
Notation "c ;; k" := (bind c (fun _ => k))
  (at level 61, right associativity) : logged_scope.

(** ** [extract_json_from_text] *)

Definition msg_no_object : string := "No JSON object found in the text".
Definition msg_decode_error (e : exn) : string := "JSON Decode Error: " ++ exn_str e.
Definition msg_content (json_str : string) : string :=
  "Content that failed to parse: " ++ json_str.
Definition msg_unexpected (e : exn) : string :=
  "Unexpected error while extracting JSON: " ++ exn_str e.

(** The local variable [json_str] is bound when the search matches; the
    handler of [JSONDecodeError] reads it. *)
Definition read_local (name : string) (v : option string) : logged string :=
  match v with
  | Some s => ret s
  | None =>
      lift (Raise (UnboundLocalError
        ("cannot access local variable '" ++ name ++ "' where it is not associated with a value")))
  end.

Definition extract_json_from_text (text : string) : logged (option json) :=
  let json_str := re_search_braces text in
  (try_except
     (match json_str with
      | Some span =>
          json_data <- lift (json_loads span) ;;
          logger_debug "JSON successfully extracted and parsed" ;;
          ret (Some json_data)
      | None =>
          logger_error msg_no_object ;;
          ret None
      end)
     (fun e =>
        match e with
        | JSONDecodeError _ =>
            logger_error (msg_decode_error e) ;;
            span <- read_local "json_str" json_str ;;
            logger_error (msg_content span) ;;
            ret None
        | _ =>
            logger_error (msg_unexpected e) ;;
            ret None
        end))%logged.

(** ** [process_image_with_llm]

    What [client.messages.create] does for one page image: it raises, or
    it returns a message whose [content] is a list of blocks.  (A
    [content] that is not a list takes the branch of the empty list.) *)

Inductive content_block : Type :=
| TextBlock (text : string)
| OtherBlock (type : string).

Inductive reply : Type :=
| ApiError (e : exn)
| Message (content : list content_block).

Definition newline : string := String (ascii_of_nat 10) EmptyString.

Definition process_image_with_llm (r : reply) : logged (option json) :=
  (try_except
     (logger_debug "Attempting to create message..." ;;
      content <- lift (match r with
                       | ApiError e => Raise e
                       | Message content => Ok content
                       end) ;;
      logger_debug "Message created successfully." ;;
      match content with
      | message_text :: _ =>
          match message_text with
          | TextBlock text =>
              logger_info ("Message content" ++ newline ++ "-----------------") ;;
              logger_info text ;;
              json_data <- extract_json_from_text text ;;
              match json_data with
              | Some v =>
                  if truthy v then ret (Some v)
                  else (logger_error "Failed to extract JSON data from the message" ;;
                        ret None)
              | None =>
                  logger_error "Failed to extract JSON data from the message" ;;
                  ret None
              end
          | OtherBlock _ =>
              logger_error "First content item is not of type 'text'" ;;
              ret None
          end
      | [] =>
          logger_error "Unexpected message content structure" ;;
          ret None
      end)
     (fun e =>
        logger_error ("An error occurred: " ++ exn_str e) ;;
        ret None))%logged.

(** The value [process_image_with_llm] returns, the log left aside. *)
Definition structured_data_of (r : reply) : pyresult (option json) :=
  fst (process_image_with_llm r []).

(** ** [natural_sort_key]

    [re.split(r'(\d+)', s)]: the texts between the digit runs and, the
    pattern being a group, the digit runs themselves, in order.  The list
    starts and ends with a text between runs, which may be empty. *)
Fixpoint re_split_digits_from (in_digits : bool) (cur s : string) : list string :=
  match s with
  | EmptyString => if in_digits then [cur; EmptyString] else [cur]
  | String c s' =>
      if re_digit c then
        if in_digits then re_split_digits_from true (cur ++ String c EmptyString) s'
        else cur :: re_split_digits_from true (String c EmptyString) s'
      else
        if in_digits then cur :: re_split_digits_from false (String c EmptyString) s'
        else re_split_digits_from false (cur ++ String c EmptyString) s'
  end.

Definition re_split_digits (s : string) : list string :=
  re_split_digits_from false EmptyString s.

(** The elements of a key: [int] or [str]. *)
Inductive token : Type :=
| TInt (n : Z)
| TStr (s : string).

(** [int(c) if c.isdigit() else c] *)
Definition key_of_piece (c : string) : pyresult token :=
  if str_isdigit c then
    match py_int c with
    | Ok n => Ok (TInt n)
    | Raise e => Raise e
    end
  else Ok (TStr c).

(** A list comprehension: the elements in order, up to the first that raises. *)
Fixpoint map_result {A B : Type} (f : A -> pyresult B) (l : list A)
  : pyresult (list B) :=
  match l with
  | [] => Ok []
  | x :: l' =>
      match f x with
      | Raise e => Raise e
      | Ok y =>
          match map_result f l' with
          | Raise e => Raise e
          | Ok ys => Ok (y :: ys)
          end
      end
  end.

Definition natural_sort_key (s : string) : pyresult (list token) :=
  map_result key_of_piece (re_split_digits s).

(** [x == y] and [x < y] on the elements of a key.  An [int] and a [str]
    are never equal, and [<] between them raises [TypeError]. *)
Definition token_eq (x y : token) : bool :=
  match x, y with
  | TInt a, TInt b => (a =? b)%Z
  | TStr a, TStr b => String.eqb a b
  | _, _ => false
  end.

Definition token_lt (x y : token) : pyresult bool :=
  match x, y with
  | TInt a, TInt b => Ok (a <? b)%Z
  | TStr a, TStr b => Ok (String.ltb a b)
  | TInt _, TStr _ =>
      Raise (TypeError "'<' not supported between instances of 'int' and 'str'")
  | TStr _, TInt _ =>
      Raise (TypeError "'<' not supported between instances of 'str' and 'int'")
  end.

(** [a < b] on lists: the first pair of unequal elements decides; when
    there is none, the shorter list is the smaller. *)
Fixpoint key_lt (a b : list token) : pyresult bool :=
  match a, b with
  | [], [] => Ok false
  | [], _ :: _ => Ok true
  | _ :: _, [] => Ok false
  | x :: a', y :: b' => if token_eq x y then key_lt a' b' else token_lt x y
  end.

(** The order [sorted(..., key=natural_sort_key)] sorts by: [a] is
    strictly before [b]. *)
Definition natural_lt (a b : string) : pyresult bool :=
  (ka <- natural_sort_key a ;;
   kb <- natural_sort_key b ;;
   key_lt ka kb)%py.

(** [a] is not after [b]: [sorted] leaves [a] before [b]. *)
Definition natural_le (a b : string) : Prop := natural_lt b a = Ok false.

(** ** [sorted(iterable, key=...)]

    The keys are computed first, one per element and in order; the sort
    is stable and compares keys with [<] only.  It is written here as an
    insertion sort from the right.  (Which pairs CPython's sort compares
    differs, which matters only if a comparison raises; between keys of
    [natural_sort_key] none does, see [natural_keys_comparable].) *)
Section Sorted.
Context {A K : Type}.
Variable lt : K -> K -> pyresult bool.

Fixpoint insert_sorted (kx : K) (x : A) (l : list (K * A))
  : pyresult (list (K * A)) :=
  match l with
  | [] => Ok [(kx, x)]
  | (ky, y) :: l' =>
      match lt ky kx with
      | Raise e => Raise e
      | Ok true =>
          match insert_sorted kx x l' with
          | Raise e => Raise e
          | Ok r => Ok ((ky, y) :: r)
          end
      | Ok false => Ok ((kx, x) :: (ky, y) :: l')
      end
  end.

Fixpoint sort_decorated (l : list (K * A)) : pyresult (list (K * A)) :=
  match l with
  | [] => Ok []
  | (kx, x) :: l' =>
      match sort_decorated l' with
      | Raise e => Raise e
      | Ok r => insert_sorted kx x r
      end
  end.

Definition py_sorted (key : A -> pyresult K) (l : list A) : pyresult (list A) :=
  match map_result (fun x => match key x with
                             | Ok k => Ok (k, x)
                             | Raise e => Raise e
                             end) l with
  | Raise e => Raise e
  | Ok decorated =>
      match sort_decorated decorated with
      | Raise e => Raise e
      | Ok r => Ok (map snd r)
      end
  end.
End Sorted.

(** ** [process_pdf] *)

(** [survey_data.update(structured_data)].  [None] is not iterable.
    [process_image_with_llm] returns [None] or a [dict] that is not empty
    ([process_image_with_llm_returns]), so the last case, which stands
    for the values that are neither, is never reached from [process_pdf]. *)
Definition py_update (survey_data : dict json) (structured_data : option json)
  : pyresult (dict json) :=
  match structured_data with
  | Some (JObj d) => Ok (dict_update survey_data d)
  | None => Raise (TypeError "'NoneType' object is not iterable")
  | Some _ => Raise (TypeError "object is not a mapping")
  end.

(** [structured_data.keys()] *)
Definition py_keys (structured_data : option json) : pyresult (list string) :=
  match structured_data with
  | Some (JObj d) => Ok (dict_keys d)
  | _ => Raise (AttributeError "object has no attribute 'keys'")
  end.

(** [survey_data.get(q, {}).get('answer', '')]: only a [dict] has [get]. *)
Definition answer_cell (survey_data : dict json) (q : string) : pyresult json :=
  match dict_get survey_data q with
  | None => Ok (JStr "")
  | Some (JObj entry) =>
      match dict_get entry "answer" with
      | Some a => Ok a
      | None => Ok (JStr "")
      end
  | Some _ => Raise (AttributeError "object has no attribute 'get'")
  end.

(** The cells appended to [row_data], one per entry of [question_structure]. *)
Definition row_cells (question_structure : list string) (survey_data : dict json)
  : pyresult (list json) :=
  map_result (answer_cell survey_data) question_structure.

(** [len(range(0, stop, n))] for a positive step [n]: the number of
    surveys, the last of which may be short. *)
Definition instances (stop n : nat) : nat := (stop + n - 1) / n.

(** The values of [range(0, stop, step)] for [stop = len(images)]. *)
Definition py_range_step (stop : nat) (step : Z) : pyresult (list nat) :=
  if (step =? 0)%Z then Raise (ValueError "range() arg 3 must not be zero")
  else if (step <? 0)%Z then Ok []
  else
    let n := Z.to_nat step in
    Ok (map (fun k => k * n) (seq 0 (instances stop n))).

(** A [for] loop whose body may raise. *)
Fixpoint fold_result {S X : Type} (f : S -> X -> pyresult S) (l : list X) (s : S)
  : pyresult S :=
  match l with
  | [] => Ok s
  | x :: l' =>
      match f s x with
      | Ok s' => fold_result f l' s'
      | Raise e => Raise e
      end
  end.

(** The variables [process_pdf] carries from one survey to the next. *)
Record run_state : Type := {
  question_structure : list string;
  all_data : list (list json)
}.

(** What is handed to [csv.writer]: the header row and the data rows. *)
Record csv_table : Type := {
  header : list string;
  rows : list (list json)
}.

Section ProcessPdf.

(** [set_iter l] is [set(l)] as [sorted] iterates over it: the distinct
    elements of [l], in an order the program does not choose. *)
Variable set_iter : list string -> list string.

(** The [try] statement for one page.  An exception ends the body where
    it is raised; the [except Exception] clause logs it and the loop goes
    on with the variables as the body left them. *)
Definition process_page (first : bool) (st : dict json * list string) (r : reply)
  : dict json * list string :=
  let '(survey_data, question_structure) := st in
  match structured_data_of r with
  | Raise _ => st
  | Ok structured_data =>
      match py_update survey_data structured_data with
      | Raise _ => st
      | Ok survey_data' =>
          if first then
            match py_keys structured_data with
            | Ok keys => (survey_data', question_structure ++ keys)
            | Raise _ => (survey_data', question_structure)
            end
          else (survey_data', question_structure)
      end
  end.

(** [for j in range(survey_length): if i + j < len(images): ...],
    from an empty [survey_data]. *)
Definition collect_survey (images : list reply) (survey_length i : nat)
  (question_structure : list string) : dict json * list string :=
  fold_left
    (fun st j =>
       match nth_error images (i + j) with
       | Some r => process_page (Nat.eqb i 0) st r
       | None => st
       end)
    (seq 0 survey_length) ([], question_structure).

(** [sorted(set(question_structure), key=natural_sort_key)] *)
Definition finalize_structure (question_structure : list string)
  : pyresult (list string) :=
  py_sorted key_lt natural_sort_key (set_iter question_structure).

(** One turn of the outer loop, for the survey that starts at page [i]. *)
Definition survey_step (images : list reply) (survey_length : nat)
  (st : run_state) (i : nat) : pyresult run_state :=
  let '(survey_data, qs) :=
    collect_survey images survey_length i (question_structure st) in
  (qs' <- (if Nat.eqb i 0 then finalize_structure qs else Ok qs) ;;
   cells <- row_cells qs' survey_data ;;
   let row_data := JInt (Z.of_nat (i / survey_length + 1)) :: cells in
   Ok {| question_structure := qs'; all_data := all_data st ++ [row_data] |})%py.

Definition process_pdf (images : list reply) (survey_length : Z)
  : pyresult csv_table :=
  (starts <- py_range_step (List.length images) survey_length ;;
   st <- fold_result (survey_step images (Z.to_nat survey_length)) starts
           {| question_structure := []; all_data := [] |} ;;
   Ok {| header := "response_id" :: question_structure st;
         rows := all_data st |})%py.

End ProcessPdf.

(** The schema of a table: its header without [response_id]. *)
Definition schema (t : csv_table) : list string := tl (header t).

(** * The vocabulary of the properties *)

(** [brace_span text span]: [span] runs from the leftmost ['{'] of [text]
    to its rightmost ['}'], which comes after it. *)
Definition brace_span (text span : string) : Prop :=
  exists pre mid post : string,
    text = (pre ++ String lbrace (mid ++ String rbrace post))%string
    /\ exists_char is_lbrace pre = false
    /\ exists_char is_rbrace post = false
    /\ span = String lbrace (mid ++ String rbrace "")%string.

(** The value returned and the records written, from an empty log. *)
Definition extraction_value (text : string) : pyresult (option json) :=
  fst (extract_json_from_text text []).

Definition extraction_log (text : string) : list record :=
  snd (extract_json_from_text text []).

(** The failures as the specification names them. *)
Inductive failure : Type :=
| NoObjectFound
| MalformedJSON (offending : string).

(** The caller can read the failure, and with it the offending span, off
    the value [extract_json_from_text] returns. *)
Definition failure_visible_to_caller : Prop :=
  exists failure_of : pyresult (option json) -> option failure,
    forall text : string,
      ((forall span : string, ~ brace_span text span) ->
       failure_of (extraction_value text) = Some NoObjectFound)
      /\ (forall span : string,
            brace_span text span ->
            (forall v : json, json_loads span <> Ok v) ->
            failure_of (extraction_value text) = Some (MalformedJSON span)).

Definition quoted (s : string) : string := String dquote (s ++ String dquote "").

(** [{"1_1": {"question": "Yes", "answer": true}}] *)
Definition sample_object_text : string :=
  "{" ++ quoted "1_1" ++ ": {" ++ quoted "question" ++ ": " ++ quoted "Yes"
      ++ ", " ++ quoted "answer" ++ ": true}}".

Definition sample_object : dict json :=
  [("1_1", JObj [("question", JStr "Yes"); ("answer", JBool true)])].

(** A text contains a JSON object when one of its substrings is the text
    of one. *)
Definition contains_object (s : string) : Prop :=
  exists (a u b : string) (d : dict json),
    s = (a ++ u ++ b)%string /\ json_loads u = Ok (JObj d).

(** The round trip as the specification words it: the text of one object,
    between two stretches of prose that contain no object, is parsed to
    that object. *)
Definition extraction_round_trip : Prop :=
  forall (pre obj post : string) (d : dict json),
    json_loads obj = Ok (JObj d) ->
    ~ contains_object pre ->
    ~ contains_object post ->
    extraction_value (pre ++ obj ++ post) = Ok (Some (JObj d)).

Fixpoint prefixes (s : string) : list string :=
  match s with
  | EmptyString => [EmptyString]
  | String c s' => EmptyString :: map (String c) (prefixes s')
  end.

Fixpoint substrings (s : string) : list string :=
  match s with
  | EmptyString => [EmptyString]
  | String c s' => prefixes s ++ substrings s'
  end.

Definition is_object_text (u : string) : bool :=
  match json_loads u with
  | Ok (JObj _) => true
  | _ => false
  end.

Definition no_digit (s : string) : Prop :=
  forall_chars (fun c => negb (re_digit c)) s = true.

Definition digit_run (s : string) : Prop :=
  s <> EmptyString /\ forall_chars re_digit s = true.

(** The list [re.split] returns: texts without digits and digit runs in
    turn, a text last.  The flag tells whether the head is a digit run. *)
Inductive pieces : bool -> list string -> Prop :=
| pieces_end (t : string) : no_digit t -> pieces false [t]
| pieces_text (t : string) (l : list string) :
    no_digit t -> pieces true l -> pieces false (t :: l)
| pieces_run (d : string) (l : list string) :
    digit_run d -> pieces false l -> pieces true (d :: l).

(** The key made of it: [str] and [int] in turn. *)
Inductive key_shape : bool -> list token -> Prop :=
| shape_nil (b : bool) : key_shape b []
| shape_str (s : string) (k : list token) :
    key_shape true k -> key_shape false (TStr s :: k)
| shape_int (n : Z) (k : list token) :
    key_shape false k -> key_shape true (TInt n :: k).

(** The ordering as the specification words it: a total order on
    identifiers. *)
Definition natural_total_order : Prop :=
  (forall a b : string, natural_le a b \/ natural_le b a)
  /\ (forall a b c : string, natural_le a b -> natural_le b c -> natural_le a c)
  /\ (forall a b : string, natural_le a b -> natural_le b a -> a = b).

(** The mapping a page adds to its survey: the value of
    [process_image_with_llm] when it is a [dict], nothing otherwise. *)
Definition page_answers (r : reply) : option (dict json) :=
  match structured_data_of r with
  | Ok (Some (JObj d)) => Some d
  | _ => None
  end.

(** The pages of the survey that starts at page [i]. *)
Definition survey_pages (images : list reply) (survey_length i : nat) : list reply :=
  firstn survey_length (skipn i images).

(** The mappings of the pages that were extracted, in page order. *)
Fixpoint surviving (pages : list reply) : list (dict json) :=
  match pages with
  | [] => []
  | r :: pages' =>
      match page_answers r with
      | Some d => d :: surviving pages'
      | None => surviving pages'
      end
  end.

(** The union of the mappings, a later one overwriting an earlier one. *)
Definition merge_pages (ds : list (dict json)) : dict json :=
  fold_left dict_update ds [].

(** The entry of [q] on the last page that has one. *)
Fixpoint last_entry (ds : list (dict json)) (q : string) : option json :=
  match ds with
  | [] => None
  | d :: ds' =>
      match last_entry ds' q with
      | Some v => Some v
      | None => dict_get d q
      end
  end.

(** What the program relies on of the iteration over [set(l)]: each
    element of [l] once. *)
Definition set_order (set_iter : list string -> list string) : Prop :=
  forall l : list string,
    NoDup (set_iter l) /\ (forall x : string, In x (set_iter l) <-> In x l).

(** The identifiers collected from the first survey. *)
Definition first_survey_keys (images : list reply) (survey_length : nat)
  : list string :=
  flat_map dict_keys (surviving (survey_pages images survey_length 0)).

(** An order of iteration to run the program with: first seen, first. *)
Definition first_seen : list string -> list string := nodup string_dec.

Definition answer_entry (question : string) (answer : json) : json :=
  JObj [("question", JStr question); ("answer", answer)].

(** The table of the scenario. *)
Definition scenario_table : csv_table :=
  {| header := ["response_id"; "1_1"; "1_2"];
     rows := [[JInt 1; JBool true; JBool false];
              [JInt 2; JBool false; JStr ""]] |}.

(** A reply whose first block is the text [t]. *)
Definition text_page (t : string) : reply := Message [TextBlock t].

(** [{"id": {"question": "...", "answer": ...}}] *)
Definition entry_text (id question answer : string) : string :=
  "{" ++ quoted id ++ ": {" ++ quoted "question" ++ ": " ++ quoted question
      ++ ", " ++ quoted "answer" ++ ": " ++ answer ++ "}}".

Definition scenario_images : list reply :=
  [text_page ("Here is the page: " ++ entry_text "1_1" "Yes" "true");
   text_page (entry_text "1_2" "No" "false");
   text_page (entry_text "1_1" "Yes" "false");
   text_page "{}"].

(** Two surveys and a short one; no page of the first is extracted. *)
Definition unread_first_survey : list reply :=
  [text_page "I cannot read this page.";
   ApiError (OtherException "Connection error.");
   text_page (entry_text "1_1" "Yes" "true");
   Message [];
   text_page (entry_text "3" "Name" (quoted "Ada"))].

(** [{"2": "Blue"}]: the answer given in place of the entry. *)
Definition flat_answer_text : string :=
  "{" ++ quoted "2" ++ ": " ++ quoted "Blue" ++ "}".

Definition is_mapping (v : json) : Prop := exists entry : dict json, v = JObj entry.

(** Every entry of [survey_data] under an identifier of [qs] is a mapping. *)
Definition mapping_entries (survey_data : dict json) (qs : list string) : Prop :=
  forall (q : string) (v : json),
    In q qs -> dict_get survey_data q = Some v -> is_mapping v.

(** The cell the specification asks for: the ['answer'] field of the
    entry when there is one, the placeholder otherwise. *)
Definition cell_of (survey_data : dict json) (q : string) : json :=
  match dict_get survey_data q with
  | Some (JObj entry) =>
      match dict_get entry "answer" with
      | Some a => a
      | None => JStr ""
      end
  | _ => JStr ""
  end.

(** [ka] is not after [kb]. *)
Definition key_le (ka kb : list token) : Prop := key_lt kb ka = Ok false.

Definition shaped {A : Type} (p : list token * A) : Prop := key_shape false (fst p).

Definition decorated_le {A : Type} (p q : list token * A) : Prop :=
  key_le (fst p) (fst q).

(** The key of each identifier is computed. *)
Definition keys_computed (l : list string) : Prop :=
  Forall (fun q => exists k : list token, natural_sort_key q = Ok k) l.

Definition keyed (p : list token * string) : Prop :=
  natural_sort_key (snd p) = Ok (fst p).

Definition decorate (x : string) : pyresult (list token * string) :=
  match natural_sort_key x with
  | Ok k => Ok (k, x)
  | Raise e => Raise e
  end.

(** Two pages of one survey: [{"1_1": ...}] and [{"2": ..., "1_2": ...}]. *)
Definition two_page_survey : list reply :=
  [text_page (entry_text "1_1" "Yes" "true");
   text_page ("{" ++ quoted "2" ++ ": {" ++ quoted "question" ++ ": " ++ quoted "Color"
                ++ ", " ++ quoted "answer" ++ ": " ++ quoted "Blue" ++ "}, "
                ++ quoted "1_2" ++ ": {" ++ quoted "question" ++ ": " ++ quoted "No"
                ++ ", " ++ quoted "answer" ++ ": false}}")].

Definition two_page_table : csv_table :=
  {| header := ["response_id"; "1_1"; "1_2"; "2"];
     rows := [[JInt 1; JBool true; JBool false; JStr "Blue"]] |}.

(** Every entry of every extracted page is a mapping. *)
Definition mapping_pages (images : list reply) : Prop :=
  forall (r : reply) (d : dict json) (q : string) (v : json),
    In r images -> page_answers r = Some d -> dict_get d q = Some v -> is_mapping v.

(** The row of survey [k] (from 0) for the schema [qs]. *)
Definition survey_row (images : list reply) (n : nat) (qs : list string) (k : nat)
  : list json :=
  JInt (Z.of_nat (k + 1))
  :: map (cell_of (merge_pages (surviving (survey_pages images n (k * n))))) qs.

(** Five pages in surveys of two: page 2 is not extracted and the last
    survey is short. *)
Definition five_pages : list reply :=
  [text_page (entry_text "1_1" "Yes" "true");
   text_page "Sorry, the image is blank.";
   text_page (entry_text "1_1" "Yes" "false");
   text_page (entry_text "1_2" "No" "true");
   text_page (entry_text "1_1" "Yes" "true")].

(** * The vocabulary of the further properties *)

(** The row of survey [k] (from 0) as the loop makes it: the response id
    and the cells of the schema [qs], or the exception of the first cell
    that raises. *)
Definition row_of (images : list reply) (n : nat) (qs : list string) (k : nat)
  : pyresult (list json) :=
  match row_cells qs (merge_pages (surviving (survey_pages images n (k * n)))) with
  | Ok cells => Ok (JInt (Z.of_nat (k + 1)) :: cells)
  | Raise e => Raise e
  end.

(** [process_pdf] without its loop variables: the schema from the first
    survey, then one row per survey. *)
Definition table_of (set_iter : list string -> list string)
  (images : list reply) (n : nat) : pyresult csv_table :=
  match images with
  | [] => Ok {| header := ["response_id"]; rows := [] |}
  | _ :: _ =>
      match finalize_structure set_iter (first_survey_keys images n) with
      | Raise e => Raise e
      | Ok qs =>
          match map_result (row_of images n qs)
                  (seq 0 (instances (List.length images) n)) with
          | Raise e => Raise e
          | Ok data => Ok {| header := "response_id" :: qs; rows := data |}
          end
      end
  end.

(** The table of [five_pages] in surveys of two. *)
Definition five_pages_table : csv_table :=
  {| header := ["response_id"; "1_1"];
     rows := [[JInt 1; JBool true]; [JInt 2; JBool false]; [JInt 3; JBool true]] |}.

(** No character of [s] is one that [str.isdigit] accepts and [int]
    refuses: the digits of [s] are decimal digits. *)
Definition plain_digits (s : string) : bool :=
  forall_chars (fun c => negb (char_isdigit c) || re_digit c) s.

(** An identifier whose digits are decimal and which is short enough for
    every one of its digit runs to be within the limit of [int]. *)
Definition plain_identifier (q : string) : Prop :=
  plain_digits q = true /\ String.length q <= int_max_str_digits.

(** Another order of iteration over a set: last seen, first. *)
Definition last_seen (l : list string) : list string := rev (nodup string_dec l).

(** The last, and the first, character of a text is a decimal digit. *)
Fixpoint ends_with_digit (s : string) : bool :=
  match s with
  | EmptyString => false
  | String c EmptyString => re_digit c
  | String _ s' => ends_with_digit s'
  end.

Definition starts_with_digit (s : string) : bool :=
  match s with
  | EmptyString => false
  | String c _ => re_digit c
  end.

(** ** [main]: the API key

    [s[:n]], [s[i:]] for [0 <= i], and [s[-n:]] for [0 < n], which starts
    at [max(len(s) - n, 0)]. *)
Fixpoint py_slice_to (n : nat) (s : string) : string :=
  match n, s with
  | S n', String c s' => String c (py_slice_to n' s')
  | _, _ => EmptyString
  end.

Fixpoint py_slice_from (i : nat) (s : string) : string :=
  match i, s with
  | S i', String _ s' => py_slice_from i' s'
  | _, _ => s
  end.

Definition py_slice_last (n : nat) (s : string) : string :=
  py_slice_from (String.length s - n) s.

Definition msg_no_api_key : string :=
  "ANTHROPIC_API_KEY not found in .env file or environment variables".

(** [main] from [api_key = os.getenv("ANTHROPIC_API_KEY")] on.  [api_key]
    is what [os.getenv] returns, [None] when the variable is not set;
    [rest] is what follows the first [logger.info], from the creation of
    the client to the end, given the key. *)
Definition main {A : Type} (api_key : option string) (rest : string -> logged A)
  : logged A :=
  match api_key with
  | None | Some EmptyString =>
      (logger_error msg_no_api_key ;;
       lift (Raise (ValueError msg_no_api_key)))%logged
  | Some api_key =>
      (logger_info ("Using API key: " ++ py_slice_to 4 api_key ++ "..."
                      ++ py_slice_last 4 api_key)%string ;;
       rest api_key)%logged
  end.

(** The log as [main] leaves it to the creation of the client. *)
Definition api_key_log (api_key : string) (log : list record) : list record :=
  snd (main (Some api_key) (fun _ => ret tt) log).

(** * Properties *)

(** ** Texts *)

Lemma append_nil_r (s : string) : (s ++ "")%string = s.
Proof. induction s as [|c s IH]; simpl; [reflexivity | now rewrite IH]. Qed.

Lemma append_assoc (a b c : string) :
  ((a ++ b) ++ c)%string = (a ++ (b ++ c))%string.
Proof. induction a as [|x a IH]; simpl; [reflexivity | now rewrite IH]. Qed.

Lemma exists_char_app (p : ascii -> bool) (a b : string) :
  exists_char p (a ++ b)%string = exists_char p a || exists_char p b.
Proof.
  induction a as [|c a IH]; simpl; [reflexivity|].
  now rewrite IH, orb_assoc.
Qed.

Lemma forall_chars_app (p : ascii -> bool) (a b : string) :
  forall_chars p (a ++ b)%string = forall_chars p a && forall_chars p b.
Proof.
  induction a as [|c a IH]; simpl; [reflexivity|].
  now rewrite IH, andb_assoc.
Qed.

Lemma is_lbrace_true (c : ascii) : is_lbrace c = true -> c = lbrace.
Proof. apply Ascii.eqb_eq. Qed.

Lemma is_rbrace_true (c : ascii) : is_rbrace c = true -> c = rbrace.
Proof. apply Ascii.eqb_eq. Qed.

(** ** The span [re.search] returns *)

Lemma dot_star_rbrace_none (s : string) :
  exists_char is_rbrace s = false -> dot_star_rbrace s = None.
Proof.
  induction s as [|c s IH]; simpl; [reflexivity|].
  intros H. apply orb_false_iff in H as [Hc Hs].
  now rewrite (IH Hs), Hc.
Qed.

Lemma dot_star_rbrace_some (s m : string) :
  dot_star_rbrace s = Some m ->
  exists mid post : string,
    s = (mid ++ String rbrace post)%string
    /\ m = (mid ++ String rbrace "")%string
    /\ exists_char is_rbrace post = false.
Proof.
  revert m. induction s as [|c s IH]; simpl; intros m H; [discriminate|].
  destruct (dot_star_rbrace s) as [m'|] eqn:E.
  - injection H as <-.
    destruct (IH m' eq_refl) as (mid & post & -> & -> & Hp).
    exists (String c mid), post. now repeat split.
  - destruct (is_rbrace c) eqn:Ec; [|discriminate].
    injection H as <-. apply is_rbrace_true in Ec. subst c.
    exists EmptyString, s. repeat split.
    destruct (exists_char is_rbrace s) eqn:Es; [|reflexivity].
    exfalso. clear IH. induction s as [|d s IHs]; simpl in *; [discriminate|].
    destruct (dot_star_rbrace s); [discriminate|].
    destruct (is_rbrace d); [discriminate|]. simpl in Es. now apply IHs.
Qed.

Lemma dot_star_rbrace_greedy (mid post : string) :
  exists_char is_rbrace post = false ->
  dot_star_rbrace (mid ++ String rbrace post)%string
  = Some (mid ++ String rbrace "")%string.
Proof.
  intros Hp. induction mid as [|c mid IH]; simpl.
  - now rewrite (dot_star_rbrace_none _ Hp).
  - now rewrite IH.
Qed.

Lemma re_search_braces_no_rbrace (s : string) :
  exists_char is_rbrace s = false -> re_search_braces s = None.
Proof.
  induction s as [|c s IH]; simpl; [reflexivity|].
  intros H. apply orb_false_iff in H as [_ Hs].
  rewrite (dot_star_rbrace_none _ Hs), (IH Hs).
  now destruct (is_lbrace c).
Qed.

Lemma re_search_braces_no_lbrace (s : string) :
  exists_char is_lbrace s = false -> re_search_braces s = None.
Proof.
  induction s as [|c s IH]; simpl; [reflexivity|].
  intros H. apply orb_false_iff in H as [Hc Hs].
  now rewrite Hc, (IH Hs).
Qed.

Lemma re_search_braces_span (text span : string) :
  re_search_braces text = Some span <-> brace_span text span.
Proof.
  split.
  - revert span. induction text as [|c s IH]; simpl; intros span H; [discriminate|].
    destruct (is_lbrace c) eqn:Ec.
    + destruct (dot_star_rbrace s) as [m|] eqn:Em.
      * injection H as <-. apply is_lbrace_true in Ec. subst c.
        destruct (dot_star_rbrace_some _ _ Em) as (mid & post & -> & -> & Hp).
        exists EmptyString, mid, post. now repeat split.
      * rewrite re_search_braces_no_rbrace in H; [discriminate|].
        destruct (exists_char is_rbrace s) eqn:Es; [|reflexivity].
        exfalso. clear IH H. induction s as [|d s IHs]; simpl in *; [discriminate|].
        destruct (dot_star_rbrace s); [discriminate|].
        destruct (is_rbrace d); [discriminate|]. now apply IHs.
    + destruct (IH span H) as (pre & mid & post & -> & Hpre & Hpost & ->).
      exists (String c pre), mid, post. simpl. rewrite Ec, Hpre. now repeat split.
  - intros (pre & mid & post & -> & Hpre & Hpost & ->).
    induction pre as [|c pre IH]; simpl.
    + now rewrite (dot_star_rbrace_greedy _ _ Hpost).
    + simpl in Hpre. apply orb_false_iff in Hpre as [Hc Hpre].
      rewrite Hc. now apply IH.
Qed.

Lemma re_search_braces_none (text : string) :
  re_search_braces text = None <-> forall span : string, ~ brace_span text span.
Proof.
  split.
  - intros H span Hs. apply re_search_braces_span in Hs. congruence.
  - intros H. destruct (re_search_braces text) as [span|] eqn:E; [|reflexivity].
    exfalso. apply (H span). now apply re_search_braces_span.
Qed.

Lemma re_search_braces_starts (text span : string) :
  re_search_braces text = Some span -> exists r : string, span = String lbrace r.
Proof.
  intros H. apply re_search_braces_span in H as (_ & mid & _ & _ & _ & _ & ->).
  now eexists.
Qed.

(** ** [json_loads] on a text that starts with a brace *)

Lemma scan_once_lbrace (fuel : nat) (r : string) (v : json) (rest : string) :
  scan_once fuel (String lbrace r) = Ok (v, rest) -> exists d : dict json, v = JObj d.
Proof.
  destruct fuel as [|fuel]; simpl; [discriminate|].
  destruct (skip_ws r) as [|c1 r1]; [discriminate|].
  destruct (is_rbrace c1).
  - intros H. injection H as <- _. now eexists.
  - destruct (Ascii.eqb c1 dquote); [|discriminate].
    destruct (object_pairs fuel r1 []) as [[pairs rest']|e]; [|discriminate].
    intros H. injection H as <- _. now eexists.
Qed.

Lemma json_loads_lbrace (r : string) (v : json) :
  json_loads (String lbrace r) = Ok v -> exists d : dict json, v = JObj d.
Proof.
  unfold json_loads.
  change (skip_ws (String lbrace r)) with (String lbrace r).
  destruct (scan_once _ (String lbrace r)) as [[v' rest]|e] eqn:E; [|discriminate].
  destruct (skip_ws rest); [|discriminate].
  intros H. injection H as <-. exact (scan_once_lbrace _ _ _ _ E).
Qed.

(** ** The fuel of [json_loads] is enough *)

Lemma skip_ws_length (s : string) : String.length (skip_ws s) <= String.length s.
Proof.
  induction s as [|c s IH]; simpl; [lia|].
  destruct (is_ws c); simpl; lia.
Qed.

Lemma scanstring_bounded (n : nat) :
  forall s : string,
    String.length s <= n ->
    scanstring s <> Raise RecursionError
    /\ (forall str rest : string,
          scanstring s = Ok (str, rest) -> String.length rest < String.length s).
Proof.
  induction n as [|n IH]; intros s Hn.
  - destruct s; simpl in *; [|lia]. split; [discriminate|discriminate].
  - destruct s as [|c s]; [split; discriminate|].
    cbn [scanstring].
    destruct (Ascii.eqb c dquote).
    { split; [discriminate|]. intros str rest H. injection H as _ <-. simpl. lia. }
    destruct (Ascii.eqb c backslash).
    { destruct s as [|e s]; [split; discriminate|].
      destruct (Ascii.eqb e "u").
      - destruct s as [|h1 [|h2 [|h3 [|h4 r]]]]; try (split; discriminate).
        destruct (hex4 h1 h2 h3 h4) as [k|]; [|split; discriminate].
        destruct (Nat.ltb k 256); [|split; discriminate].
        destruct (IH r ltac:(simpl in Hn; lia)) as [N L].
        destruct (scanstring r) as [[str rest]|x] eqn:E.
        + split; [discriminate|]. intros str' rest' H. injection H as _ <-.
          specialize (L _ _ eq_refl). simpl. lia.
        + split; [congruence|discriminate].
      - destruct (simple_escape e); [|split; discriminate].
        destruct (IH s ltac:(simpl in Hn; lia)) as [N L].
        destruct (scanstring s) as [[str rest]|x] eqn:E.
        + split; [discriminate|]. intros str' rest' H. injection H as _ <-.
          specialize (L _ _ eq_refl). simpl. lia.
        + split; [congruence|discriminate]. }
    destruct (Nat.ltb (code c) 32); [split; discriminate|].
    destruct (IH s ltac:(simpl in Hn; lia)) as [N L].
    destruct (scanstring s) as [[str rest]|x] eqn:E.
    + split; [discriminate|]. intros str' rest' H. injection H as _ <-.
      specialize (L _ _ eq_refl). simpl. lia.
    + split; [congruence|discriminate].
Qed.

Lemma scanstring_shorter (s str rest : string) :
  scanstring s = Ok (str, rest) -> String.length rest < String.length s.
Proof. apply (scanstring_bounded (String.length s) s (le_n _)). Qed.

Lemma scanstring_no_recursion (s : string) : scanstring s <> Raise RecursionError.
Proof. apply (scanstring_bounded (String.length s) s (le_n _)). Qed.

Lemma strip_prefix_length (p : string) :
  forall s r : string,
    strip_prefix p s = Some r -> String.length r + String.length p = String.length s.
Proof.
  induction p as [|a p IH]; intros [|b s] r; simpl; try discriminate.
  - intros H. injection H as <-. simpl. lia.
  - intros H. injection H as <-. simpl. lia.
  - destruct (Ascii.eqb a b); [|discriminate]. intros H. apply IH in H. lia.
Qed.

Lemma span_digits_length (s : string) :
  forall d r : string,
    span_digits s = (d, r) -> String.length d + String.length r = String.length s.
Proof.
  induction s as [|c s IH]; simpl; intros d r H.
  - injection H as <- <-. reflexivity.
  - destruct (re_digit c).
    + destruct (span_digits s) as [d' r'] eqn:E. injection H as <- <-.
      specialize (IH _ _ eq_refl). simpl. lia.
    + injection H as <- <-. simpl. lia.
Qed.

Lemma match_frac_length (s : string) (f : option string) (r : string) :
  match_frac s = (f, r) -> String.length r <= String.length s.
Proof.
  unfold match_frac. destruct s as [|c s]; [intros H; injection H as _ <-; lia|].
  destruct (Ascii.eqb c ".").
  - destruct (span_digits s) as [d r'] eqn:E.
    apply span_digits_length in E.
    destruct d; intros H; injection H as _ <-; simpl in *; lia.
  - intros H. injection H as _ <-. lia.
Qed.

Lemma match_exp_length (s : string) (e : option (bool * string)) (r : string) :
  match_exp s = (e, r) -> String.length r <= String.length s.
Proof.
  unfold match_exp. destruct s as [|c s]; [intros H; injection H as _ <-; lia|].
  destruct (Ascii.eqb c "e" || Ascii.eqb c "E").
  - destruct s as [|g s'].
    + simpl. intros H. injection H as _ <-. simpl. lia.
    + destruct (Ascii.eqb g "-"); [|destruct (Ascii.eqb g "+")];
        match goal with
        | |- context [span_digits ?t] =>
            destruct (span_digits t) as [d r'] eqn:E;
            apply span_digits_length in E
        end;
        destruct d; intros H; injection H as _ <-; simpl in *; lia.
  - intros H. injection H as _ <-. lia.
Qed.

Lemma match_tail_length (neg : bool) (ip s : string) :
  String.length (nm_rest (match_tail neg ip s)) <= String.length s.
Proof.
  unfold match_tail.
  destruct (match_frac s) as [frac s1] eqn:Ef. apply match_frac_length in Ef.
  destruct (match_exp s1) as [exp s2] eqn:Ee. apply match_exp_length in Ee.
  simpl. lia.
Qed.

Lemma match_unsigned_shorter (neg : bool) (s : string) (m : number_match) :
  match_unsigned neg s = Some m -> String.length (nm_rest m) < String.length s.
Proof.
  unfold match_unsigned. destruct s as [|c s]; [discriminate|].
  destruct (re_digit c); [|discriminate].
  destruct (Ascii.eqb c "0").
  - intros H. injection H as <-.
    pose proof (match_tail_length neg (String c EmptyString) s). simpl. lia.
  - destruct (span_digits s) as [d r] eqn:Ed. apply span_digits_length in Ed.
    intros H. injection H as <-.
    pose proof (match_tail_length neg (String c d) r). simpl. lia.
Qed.

Lemma match_number_shorter (s : string) (m : number_match) :
  match_number s = Some m -> String.length (nm_rest m) < String.length s.
Proof.
  unfold match_number. destruct s as [|c s]; [discriminate|].
  destruct (Ascii.eqb c "-"); intros H; apply match_unsigned_shorter in H.
  - simpl. lia.
  - exact H.
Qed.

Lemma number_value_no_recursion (m : number_match) :
  number_value m <> Raise RecursionError.
Proof.
  unfold number_value.
  destruct (nm_frac m), (nm_exp m) as [[? ?]|]; try discriminate.
  unfold py_int. destruct (forall_chars re_digit (nm_int m)); [|simpl; discriminate].
  destruct (Nat.ltb _ _); simpl; discriminate.
Qed.

Ltac atom_prefix p s :=
  let E := fresh "E" in
  destruct (strip_prefix p s) as [?r|] eqn:E;
  [apply strip_prefix_length in E; split; [discriminate|];
   intros v rest H; injection H as _ <-; simpl in E; lia|].

Lemma scan_atom_bounded (s : string) :
  scan_atom s <> Raise RecursionError
  /\ (forall (v : json) (rest : string),
        scan_atom s = Ok (v, rest) -> String.length rest < String.length s).
Proof.
  unfold scan_atom.
  atom_prefix "null"%string s.
  atom_prefix "true"%string s.
  atom_prefix "false"%string s.
  destruct (match_number s) as [m|] eqn:Em.
  { apply match_number_shorter in Em.
    pose proof (number_value_no_recursion m).
    destruct (number_value m) as [w|x].
    - split; [discriminate|]. intros v rest H0. injection H0 as _ <-. exact Em.
    - split; [congruence|discriminate]. }
  atom_prefix "NaN"%string s.
  atom_prefix "Infinity"%string s.
  atom_prefix "-Infinity"%string s.
  split; discriminate.
Qed.

Ltac ws_length s :=
  let H := fresh "W" in
  pose proof (skip_ws_length s) as H;
  let c := fresh "c" in
  let r := fresh "r" in
  destruct (skip_ws s) as [|c r]; cbn [String.length] in H.

Lemma scan_bounded (fuel : nat) :
  (forall s : string,
      2 * String.length s < fuel ->
      scan_once fuel s <> Raise RecursionError
      /\ (forall (v : json) (rest : string),
            scan_once fuel s = Ok (v, rest) -> String.length rest < String.length s))
  /\ (forall (s : string) (pairs : list (string * json)),
        2 * String.length s + 1 < fuel ->
        object_pairs fuel s pairs <> Raise RecursionError
        /\ (forall (ps : list (string * json)) (rest : string),
              object_pairs fuel s pairs = Ok (ps, rest) ->
              String.length rest < String.length s))
  /\ (forall (s : string) (items : list json),
        2 * String.length s + 1 < fuel ->
        array_items fuel s items <> Raise RecursionError
        /\ (forall (vs : list json) (rest : string),
              array_items fuel s items = Ok (vs, rest) ->
              String.length rest < String.length s)).
Proof.
  induction fuel as [|fuel (IHs & IHo & IHa)].
  - repeat split; intros; lia.
  - split; [|split].
    + intros s Hf. cbn [scan_once].
      destruct s as [|c r]; [split; discriminate|]. cbn [String.length] in Hf.
      destruct (Ascii.eqb c dquote).
      { pose proof (scanstring_no_recursion r) as N.
        destruct (scanstring r) as [[str rest]|e] eqn:E.
        - apply scanstring_shorter in E. split; [discriminate|].
          intros v rest' H. injection H as _ <-. simpl. lia.
        - split; [congruence|discriminate]. }
      destruct (is_lbrace c).
      { ws_length r; [split; discriminate|].
        destruct (is_rbrace c0).
        - split; [discriminate|]. intros v rest H. injection H as _ <-. simpl. lia.
        - destruct (Ascii.eqb c0 dquote); [|split; discriminate].
          destruct (IHo r0 [] ltac:(lia)) as [N L].
          destruct (object_pairs fuel r0 []) as [[ps rest]|e] eqn:E.
          + specialize (L _ _ eq_refl). split; [discriminate|].
            intros v rest' H. injection H as _ <-. simpl. lia.
          + split; [congruence|discriminate]. }
      destruct (Ascii.eqb c "[").
      { ws_length r; [split; discriminate|].
        destruct (Ascii.eqb c0 "]").
        - split; [discriminate|]. intros v rest H. injection H as _ <-. simpl. lia.
        - destruct (IHa (String c0 r0) [] ltac:(simpl; lia)) as [N L].
          destruct (array_items fuel (String c0 r0) []) as [[vs rest]|e] eqn:E.
          + specialize (L _ _ eq_refl). split; [discriminate|].
            intros v rest' H. injection H as _ <-. simpl in *. lia.
          + split; [congruence|discriminate]. }
      apply scan_atom_bounded.
    + intros s pairs Hf. cbn [object_pairs].
      pose proof (scanstring_no_recursion s) as N.
      destruct (scanstring s) as [[key s1]|e] eqn:E; [|split; [congruence|discriminate]].
      apply scanstring_shorter in E.
      ws_length s1; [split; discriminate|].
      destruct (Ascii.eqb c ":"); [|split; discriminate].
      pose proof (skip_ws_length r) as W2.
      destruct (IHs (skip_ws r) ltac:(lia)) as [Ns Ls].
      destruct (scan_once fuel (skip_ws r)) as [[value s3]|e] eqn:Ev;
        [|split; [congruence|discriminate]].
      specialize (Ls _ _ eq_refl).
      ws_length s3; [split; discriminate|].
      destruct (is_rbrace c0).
      { split; [discriminate|]. intros ps rest H. injection H as _ <-. lia. }
      destruct (Ascii.eqb c0 ","); [|split; discriminate].
      ws_length r0; [split; discriminate|].
      destruct (Ascii.eqb c1 dquote); [|split; discriminate].
      destruct (IHo r1 (pairs ++ [(key, value)]) ltac:(lia)) as [No Lo].
      split; [exact No|].
      intros ps rest H. apply Lo in H. lia.
    + intros s items Hf. cbn [array_items].
      destruct (IHs s ltac:(lia)) as [Ns Ls].
      destruct (scan_once fuel s) as [[value s1]|e] eqn:Ev;
        [|split; [congruence|discriminate]].
      specialize (Ls _ _ eq_refl).
      ws_length s1; [split; discriminate|].
      destruct (Ascii.eqb c "]").
      { split; [discriminate|]. intros vs rest H. injection H as _ <-. lia. }
      destruct (Ascii.eqb c ","); [|split; discriminate].
      pose proof (skip_ws_length r) as W2.
      destruct (IHa (skip_ws r) (items ++ [value]) ltac:(lia)) as [Na La].
      split; [exact Na|].
      intros vs rest H. apply La in H. lia.
Qed.

(** [json_loads] never runs out of fuel. *)
Lemma json_loads_no_recursion (s : string) : json_loads s <> Raise RecursionError.
Proof.
  unfold json_loads.
  pose proof (skip_ws_length s) as W.
  destruct (proj1 (scan_bounded (2 * String.length s + 2)) (skip_ws s) ltac:(lia))
    as [N _].
  destruct (scan_once _ (skip_ws s)) as [[v rest]|e]; [|congruence].
  destruct (skip_ws rest); discriminate.
Qed.

(** ** What [extract_json_from_text] returns and logs, case by case *)

Lemma extract_no_span (text : string) (log : list record) :
  re_search_braces text = None ->
  extract_json_from_text text log = (Ok None, log ++ [(ERROR, msg_no_object)]).
Proof.
  intros H. unfold extract_json_from_text, try_except. now rewrite H.
Qed.

Lemma extract_parsed (text span : string) (v : json) (log : list record) :
  re_search_braces text = Some span ->
  json_loads span = Ok v ->
  extract_json_from_text text log
  = (Ok (Some v), log ++ [(DEBUG, "JSON successfully extracted and parsed")]).
Proof.
  intros H L. unfold extract_json_from_text, try_except, bind, lift.
  now rewrite H, L.
Qed.

Lemma extract_decode_error (text span m : string) (log : list record) :
  re_search_braces text = Some span ->
  json_loads span = Raise (JSONDecodeError m) ->
  extract_json_from_text text log
  = (Ok None, log ++ [(ERROR, msg_decode_error (JSONDecodeError m));
                      (ERROR, msg_content span)]).
Proof.
  intros H L. unfold extract_json_from_text, try_except, bind, lift.
  rewrite H, L. cbn. now rewrite <- app_assoc.
Qed.

Lemma extract_other_error (text span : string) (e : exn) (log : list record) :
  re_search_braces text = Some span ->
  json_loads span = Raise e ->
  (forall m : string, e <> JSONDecodeError m) ->
  extract_json_from_text text log = (Ok None, log ++ [(ERROR, msg_unexpected e)]).
Proof.
  intros H L Hne. unfold extract_json_from_text, try_except, bind, lift.
  rewrite H, L. destruct e; try reflexivity. now destruct (Hne msg).
Qed.

Lemma is_decode_error_dec (e : exn) :
  (exists m : string, e = JSONDecodeError m) \/ (forall m : string, e <> JSONDecodeError m).
Proof. destruct e; try (right; discriminate). left. now eexists. Qed.

(** ** Extraction is total *)

Lemma extract_json_from_text_cases (text : string) (log : list record) :
  exists log' : list record,
    extract_json_from_text text log = (Ok None, log')
    \/ exists (span : string) (d : dict json),
         re_search_braces text = Some span
         /\ json_loads span = Ok (JObj d)
         /\ extract_json_from_text text log = (Ok (Some (JObj d)), log').
Proof.
  destruct (re_search_braces text) as [span|] eqn:S.
  - destruct (json_loads span) as [v|e] eqn:L.
    + destruct (re_search_braces_starts _ _ S) as [r ->].
      destruct (json_loads_lbrace _ _ L) as [d ->].
      exists (log ++ [(DEBUG, "JSON successfully extracted and parsed")]).
      right. exists (String lbrace r), d.
      split; [reflexivity|]. split; [exact L|].
      exact (extract_parsed _ _ _ log S L).
    + destruct (is_decode_error_dec e) as [[m ->]|Hne].
      * eexists. left. exact (extract_decode_error _ _ _ log S L).
      * eexists. left. exact (extract_other_error _ _ _ log S L Hne).
  - eexists. left. exact (extract_no_span _ log S).
Qed.

(** C10.  [extract_json_from_text] returns on every text and from every
    log: its result is never an exception.  The value is [None] or the
    mapping [json.loads] made of the span; it is [None] when there is no
    span and when [json.loads] raises on the span, be it
    [JSONDecodeError], whose handler finds [json_str] bound, or any other
    exception. *)
Theorem extract_json_from_text_total (text : string) (log : list record) :
  exists (r : option json) (log' : list record),
    extract_json_from_text text log = (Ok r, log')
    /\ (r = None
        \/ exists (span : string) (d : dict json),
             re_search_braces text = Some span
             /\ json_loads span = Ok (JObj d)
             /\ r = Some (JObj d))
    /\ (re_search_braces text = None -> r = None)
    /\ (forall (span : string) (e : exn),
          re_search_braces text = Some span ->
          json_loads span = Raise e ->
          r = None).
Proof.
  destruct (extract_json_from_text_cases text log)
    as [log' [H | (span & d & S & L & H)]].
  - exists None, log'. split; [exact H|]. split; [now left|]. split; reflexivity.
  - exists (Some (JObj d)), log'. split; [exact H|]. split; [|split].
    + right. now exists span, d.
    + intros N. congruence.
    + intros span' e S' L'. congruence.
Qed.

(** ** How the two failures of extraction are told apart *)

(** C4, as stated, does not hold: a text without a span and a text whose
    span does not parse both return [None], so nothing the caller
    receives tells the failures apart or carries the span. *)
Lemma extraction_failures_same_value : ~ failure_visible_to_caller.
Proof.
  intros [failure_of H].
  destruct (H "x"%string) as [Hno _].
  destruct (H "{x}"%string) as [_ Hbad].
  assert (N : failure_of (extraction_value "x") = Some NoObjectFound).
  { apply Hno. apply re_search_braces_none. reflexivity. }
  assert (M : failure_of (extraction_value "{x}") = Some (MalformedJSON "{x}")).
  { apply Hbad.
    - apply re_search_braces_span. reflexivity.
    - intros v. vm_compute. discriminate. }
  change (extraction_value "{x}") with (extraction_value "x") in M.
  rewrite N in M. discriminate.
Qed.

(** C4, amended.  Both failures return [None]; they differ in the error
    records written to the log.  [msg_no_object] is logged exactly when
    the text has no span from its leftmost ['{'] to its rightmost ['}'];
    the record that holds the offending span is logged exactly when the
    text has that span and [json.loads] raises [JSONDecodeError] on it. *)
Theorem extraction_failures_logged (text : string) :
  ((forall span : string, ~ brace_span text span)
   <-> In (ERROR, msg_no_object) (extraction_log text))
  /\ (forall span : string,
        (brace_span text span
         /\ exists m : string, json_loads span = Raise (JSONDecodeError m))
        <-> In (ERROR, msg_content span) (extraction_log text))
  /\ (In (ERROR, msg_no_object) (extraction_log text) ->
      extraction_value text = Ok None)
  /\ (forall span : string,
        In (ERROR, msg_content span) (extraction_log text) ->
        extraction_value text = Ok None).
Proof.
  unfold extraction_log, extraction_value.
  destruct (re_search_braces text) as [span0|] eqn:S.
  - assert (B : brace_span text span0) by now apply re_search_braces_span.
    assert (U : forall span, brace_span text span -> span = span0).
    { intros span Hs. apply re_search_braces_span in Hs. congruence. }
    destruct (json_loads span0) as [v|e] eqn:L.
    + rewrite (extract_parsed _ _ _ [] S L). simpl.
      split; [split|split; [intros span; split|split]].
      * intros H. now destruct (H span0).
      * intros [H|[]]. discriminate.
      * intros [Hs [m Hm]]. apply U in Hs. subst span. congruence.
      * intros [H|[]]. discriminate.
      * intros [H|[]]. discriminate.
      * intros span [H|[]]. discriminate.
    + destruct (is_decode_error_dec e) as [[m ->]|Hne].
      * rewrite (extract_decode_error _ _ _ [] S L). simpl.
        split; [split|split; [intros span; split|split]].
        -- intros H. now destruct (H span0).
        -- intros [H|[H|[]]]; discriminate.
        -- intros [Hs _]. apply U in Hs. subst span. right. now left.
        -- intros [H|[H|[]]]; [discriminate|].
           injection H as H. subst span.
           split; [exact B | now exists m].
        -- intros [H|[H|[]]]; discriminate.
        -- reflexivity.
      * rewrite (extract_other_error _ _ _ [] S L Hne). simpl.
        split; [split|split; [intros span; split|split]].
        -- intros H. now destruct (H span0).
        -- intros [H|[]]. discriminate.
        -- intros [Hs [m Hm]]. apply U in Hs. subst span.
           rewrite L in Hm. injection Hm as ->. now destruct (Hne m).
        -- intros [H|[]]. discriminate.
        -- reflexivity.
        -- reflexivity.
  - assert (N : forall span, ~ brace_span text span) by now apply re_search_braces_none.
    rewrite (extract_no_span _ [] S). simpl.
    split; [split|split; [intros span; split|split]].
    + intros _. now left.
    + intros _. exact N.
    + intros [Hs _]. now destruct (N span).
    + intros [H|[]]. discriminate.
    + reflexivity.
    + reflexivity.
Qed.

Lemma extraction_failures_logged_witness :
  In (ERROR, msg_content "{x}") (extraction_log "{x}")
  /\ In (ERROR, msg_no_object) (extraction_log "x").
Proof.
  split.
  - apply (proj1 (proj1 (proj2 (extraction_failures_logged "{x}")) "{x}"%string)).
    split.
    + apply re_search_braces_span. reflexivity.
    + eexists. vm_compute. reflexivity.
  - apply (proj1 (proj1 (extraction_failures_logged "x"))).
    apply re_search_braces_none. reflexivity.
Defined.

(** ** Extraction of an object embedded in prose *)

Lemma prefixes_in (u b : string) : In u (prefixes (u ++ b)).
Proof.
  induction u as [|c u IH]; simpl.
  - destruct b; simpl; now left.
  - right. now apply in_map.
Qed.

Lemma substrings_in (a u b : string) : In u (substrings (a ++ u ++ b)).
Proof.
  induction a as [|c a IH]; simpl.
  - pose proof (prefixes_in u b) as P.
    destruct (u ++ b)%string as [|c s] eqn:E; [exact P|].
    change (In u (prefixes (String c s) ++ substrings s)).
    apply in_or_app. now left.
  - right. apply in_or_app. right. exact IH.
Qed.

Lemma no_object_check (s : string) :
  forallb (fun u => negb (is_object_text u)) (substrings s) = true ->
  ~ contains_object s.
Proof.
  intros H (a & u & b & d & -> & L).
  rewrite forallb_forall in H. specialize (H u (substrings_in a u b)).
  unfold is_object_text in H. now rewrite L in H.
Qed.

(** C3, as stated, does not hold: after the object
    [{"1_1": {"question": "Yes", "answer": true}}] the prose [ :-}] has
    no object in it, and yet the span runs to its brace and does not
    parse. *)
Lemma extraction_round_trip_fails : ~ extraction_round_trip.
Proof.
  intros H.
  specialize (H EmptyString sample_object_text " :-}"%string sample_object).
  assert (E : extraction_value (EmptyString ++ sample_object_text ++ " :-}")
              = Ok (Some (JObj sample_object))).
  { apply H.
    - vm_compute. reflexivity.
    - apply no_object_check. vm_compute. reflexivity.
    - apply no_object_check. vm_compute. reflexivity. }
  vm_compute in E. discriminate E.
Qed.

(** C3, amended.  When no ['{'] comes before the object and no ['}']
    after it, the text of the object, from its opening brace to its
    closing brace, is the span, and extraction returns the mapping
    [json.loads] makes of it.  A text without ['{'] returns [None] and
    logs [msg_no_object]. *)
Theorem extraction_round_trip_amended :
  (forall (pre mid post : string) (d : dict json),
      exists_char is_lbrace pre = false ->
      exists_char is_rbrace post = false ->
      json_loads (String lbrace (mid ++ String rbrace "")) = Ok (JObj d) ->
      extraction_value (pre ++ String lbrace (mid ++ String rbrace post))
      = Ok (Some (JObj d)))
  /\ (forall text : string,
        exists_char is_lbrace text = false ->
        extract_json_from_text text [] = (Ok None, [(ERROR, msg_no_object)])).
Proof.
  split.
  - intros pre mid post d Hpre Hpost L. unfold extraction_value.
    assert (S : re_search_braces (pre ++ String lbrace (mid ++ String rbrace post))
                = Some (String lbrace (mid ++ String rbrace ""))).
    { apply re_search_braces_span. exists pre, mid, post. now repeat split. }
    now rewrite (extract_parsed _ _ _ [] S L).
  - intros text H.
    exact (extract_no_span _ [] (re_search_braces_no_lbrace _ H)).
Qed.

Lemma extraction_round_trip_amended_witness :
  extraction_value ("Here is the result: " ++ sample_object_text ++ " Hope this helps :-)")
  = Ok (Some (JObj sample_object))
  /\ extract_json_from_text "I could not read this page." []
     = (Ok None, [(ERROR, msg_no_object)]).
Proof.
  split.
  - apply (proj1 extraction_round_trip_amended
             "Here is the result: "%string
             (quoted "1_1" ++ ": {" ++ quoted "question" ++ ": " ++ quoted "Yes"
                ++ ", " ++ quoted "answer" ++ ": true}")%string
             " Hope this helps :-)"%string sample_object);
      vm_compute; reflexivity.
  - apply (proj2 extraction_round_trip_amended); vm_compute; reflexivity.
Defined.

(** ** The shape of a natural-sort key *)

Lemma re_split_digits_from_pieces (s : string) :
  forall cur : string,
    (no_digit cur -> pieces false (re_split_digits_from false cur s))
    /\ (digit_run cur -> pieces true (re_split_digits_from true cur s)).
Proof.
  induction s as [|c s IH]; intros cur; simpl.
  - split; intros H.
    + now apply pieces_end.
    + apply pieces_run; [exact H|]. now apply pieces_end.
  - destruct (re_digit c) eqn:Ec; split; intros H.
    + apply pieces_text; [exact H|]. apply IH.
      split; [discriminate|]. simpl. now rewrite Ec.
    + apply IH. destruct H as [Hne Hd]. split.
      * destruct cur; [congruence | discriminate].
      * rewrite forall_chars_app, Hd. simpl. now rewrite Ec.
    + apply IH. unfold no_digit in *. rewrite forall_chars_app, H. simpl. now rewrite Ec.
    + apply pieces_run; [exact H|]. apply IH. unfold no_digit. simpl. now rewrite Ec.
Qed.

Lemma re_split_digits_pieces (s : string) : pieces false (re_split_digits s).
Proof. now apply re_split_digits_from_pieces. Qed.

Lemma key_of_text (t : string) (tok : token) :
  no_digit t -> key_of_piece t = Ok tok -> tok = TStr t.
Proof.
  unfold key_of_piece, no_digit. intros N.
  destruct (str_isdigit t) eqn:E.
  - destruct t as [|c t]; [discriminate|]. simpl in N.
    apply andb_true_iff in N as [Nc _]. apply negb_true_iff in Nc.
    unfold py_int. simpl. now rewrite Nc.
  - intros H. now injection H.
Qed.

Lemma re_digit_isdigit (s : string) :
  forall_chars re_digit s = true -> forall_chars char_isdigit s = true.
Proof.
  induction s as [|c s IH]; simpl; [reflexivity|].
  intros H. apply andb_true_iff in H as [Hc Hs].
  rewrite (IH Hs). unfold char_isdigit. now rewrite Hc.
Qed.

Lemma key_of_run (d : string) (tok : token) :
  digit_run d -> key_of_piece d = Ok tok -> exists n : Z, tok = TInt n.
Proof.
  intros [Hne Hd]. unfold key_of_piece.
  assert (E : str_isdigit d = true).
  { destruct d; [congruence|]. now apply re_digit_isdigit. }
  rewrite E. destruct (py_int d) as [n|e]; [|discriminate].
  intros H. injection H as <-. now exists n.
Qed.

Lemma pieces_key_shape (b : bool) (l : list string) :
  pieces b l ->
  forall k : list token, map_result key_of_piece l = Ok k -> key_shape b k.
Proof.
  induction 1 as [t N | t l N P IH | d l D P IH]; intros k; simpl.
  - destruct (key_of_piece t) as [tok|e] eqn:E; [|discriminate].
    intros H. injection H as <-. rewrite (key_of_text _ _ N E).
    apply shape_str, shape_nil.
  - destruct (key_of_piece t) as [tok|e] eqn:E; [|discriminate].
    destruct (map_result key_of_piece l) as [k'|e]; [|discriminate].
    intros H. injection H as <-. rewrite (key_of_text _ _ N E).
    now apply shape_str, IH.
  - destruct (key_of_piece d) as [tok|e] eqn:E; [|discriminate].
    destruct (map_result key_of_piece l) as [k'|e]; [|discriminate].
    intros H. injection H as <-. destruct (key_of_run _ _ D E) as [n ->].
    now apply shape_int, IH.
Qed.

Lemma natural_sort_key_shape (s : string) (k : list token) :
  natural_sort_key s = Ok k -> key_shape false k.
Proof. apply pieces_key_shape, re_split_digits_pieces. Qed.

(** ** The order of keys *)

Lemma token_eq_true (x y : token) : token_eq x y = true <-> x = y.
Proof.
  destruct x as [a|a], y as [b|b]; simpl; split; intros H;
    try discriminate; try (injection H as ->).
  - apply Z.eqb_eq in H. now subst.
  - apply Z.eqb_refl.
  - apply String.eqb_eq in H. now subst.
  - apply String.eqb_refl.
Qed.

Lemma token_eq_refl (x : token) : token_eq x x = true.
Proof. now apply token_eq_true. Qed.

Lemma token_eq_sym (x y : token) : token_eq x y = token_eq y x.
Proof.
  destruct x as [a|a], y as [b|b]; simpl; try reflexivity.
  - apply Z.eqb_sym.
  - apply String.eqb_sym.
Qed.

Lemma string_compare_refl (s : string) : String.compare s s = Eq.
Proof.
  pose proof (String.compare_antisym s s) as H.
  destruct (String.compare s s); simpl in H; congruence.
Qed.

Lemma string_ltb_irrefl (s : string) : String.ltb s s = false.
Proof. unfold String.ltb. now rewrite string_compare_refl. Qed.

Lemma string_ltb_trans (a b c : string) :
  String.ltb a b = true -> String.ltb b c = true -> String.ltb a c = true.
Proof.
  unfold String.ltb.
  destruct (String.compare a b) eqn:E1; try discriminate.
  destruct (String.compare b c) eqn:E2; try discriminate.
  intros _ _.
  apply String_as_OT.cmp_lt in E1, E2.
  pose proof (String_as_OT.lt_trans _ _ _ E1 E2) as H.
  apply String_as_OT.cmp_lt in H. unfold String_as_OT.cmp in H. now rewrite H.
Qed.

Lemma string_ltb_cases (a b : string) :
  String.eqb a b = false ->
  (String.ltb a b = true /\ String.ltb b a = false)
  \/ (String.ltb b a = true /\ String.ltb a b = false).
Proof.
  intros N. apply String.eqb_neq in N. unfold String.ltb.
  rewrite (String.compare_antisym b a).
  destruct (String.compare a b) eqn:E; simpl.
  - now apply String.compare_eq_iff in E.
  - now left.
  - now right.
Qed.

Lemma token_lt_irrefl (x : token) : token_lt x x = Ok false.
Proof.
  destruct x as [a|a]; simpl.
  - now rewrite Z.ltb_irrefl.
  - now rewrite string_ltb_irrefl.
Qed.

Lemma token_lt_trans (x y z : token) :
  token_lt x y = Ok true -> token_lt y z = Ok true -> token_lt x z = Ok true.
Proof.
  destruct x as [a|a], y as [b|b], z as [c|c]; simpl; try discriminate;
    intros H1 H2; injection H1 as H1; injection H2 as H2; f_equal.
  - apply Z.ltb_lt in H1, H2. apply Z.ltb_lt. lia.
  - now apply string_ltb_trans with b.
Qed.

Lemma key_lt_trans (ka : list token) :
  forall kb kc : list token,
    key_lt ka kb = Ok true -> key_lt kb kc = Ok true -> key_lt ka kc = Ok true.
Proof.
  induction ka as [|x ka IH]; intros [|y kb] [|z kc]; simpl; try discriminate;
    try reflexivity.
  destruct (token_eq x y) eqn:Exy, (token_eq y z) eqn:Eyz; intros H1 H2.
  - apply token_eq_true in Exy, Eyz. subst. rewrite token_eq_refl. now apply IH with kb.
  - apply token_eq_true in Exy. subst. now rewrite Eyz.
  - apply token_eq_true in Eyz. subst. now rewrite Exy.
  - destruct (token_eq x z) eqn:Exz.
    + apply token_eq_true in Exz. subst.
      pose proof (token_lt_trans _ _ _ H1 H2) as T.
      rewrite token_lt_irrefl in T. discriminate.
    + now apply token_lt_trans with y.
Qed.

(** Two keys of the same shape are ordered one way, or the other, or are
    equal; no comparison between them raises. *)
Lemma key_lt_trichotomy (b : bool) (ka : list token) :
  key_shape b ka ->
  forall kb : list token,
    key_shape b kb ->
    (key_lt ka kb = Ok true /\ key_lt kb ka = Ok false)
    \/ (ka = kb /\ key_lt ka kb = Ok false /\ key_lt kb ka = Ok false)
    \/ (key_lt kb ka = Ok true /\ key_lt ka kb = Ok false).
Proof.
  induction 1 as [b | s ka Ha IH | n ka Ha IH]; intros kb Hb.
  - destruct kb; simpl; auto.
  - inversion Hb as [b' | t kb' Hb' | ]; subst; simpl; [auto|].
    rewrite (String.eqb_sym t s).
    destruct (String.eqb s t) eqn:E.
    + apply String.eqb_eq in E. subst t.
      destruct (IH kb' Hb') as [H|[(-> & H)|H]]; auto.
    + destruct (string_ltb_cases _ _ E) as [[-> ->]|[-> ->]]; auto.
  - inversion Hb as [b' | | m kb' Hb']; subst; simpl; [auto|].
    rewrite (Z.eqb_sym m n).
    destruct (Z.eqb n m) eqn:E.
    + apply Z.eqb_eq in E. subst m.
      destruct (IH kb' Hb') as [H|[(-> & H)|H]]; auto.
    + apply Z.eqb_neq in E.
      destruct (Z.ltb_spec n m), (Z.ltb_spec m n); try lia; auto.
Qed.

Lemma natural_keys_comparable (a b : string) (ka kb : list token) :
  natural_sort_key a = Ok ka ->
  natural_sort_key b = Ok kb ->
  exists r : bool, key_lt ka kb = Ok r.
Proof.
  intros Ha Hb.
  destruct (key_lt_trichotomy _ _ (natural_sort_key_shape _ _ Ha)
              _ (natural_sort_key_shape _ _ Hb)) as [[H _]|[(_ & H & _)|[_ H]]];
    eauto.
Qed.

Lemma natural_lt_keys (a b : string) (ka kb : list token) :
  natural_sort_key a = Ok ka ->
  natural_sort_key b = Ok kb ->
  natural_lt a b = key_lt ka kb.
Proof. intros Ha Hb. unfold natural_lt. now rewrite Ha, Hb. Qed.

(** ** The identifier ordering *)

(** C2, as stated, does not hold: the identifiers ["1"] and ["01"] have
    the same key, [['', 1, '']], so each is ordered before-or-equal to
    the other and they are not equal. *)
Lemma natural_order_not_antisymmetric : ~ natural_total_order.
Proof.
  intros (_ & _ & A).
  specialize (A "1"%string "01"%string).
  assert (H : "1"%string = "01"%string).
  { apply A; reflexivity. }
  discriminate H.
Qed.

(** C2, amended.  On identifiers whose key is computed the ordering is a
    total preorder: no comparison raises, any two identifiers are ordered
    one way or the other, the order is transitive, and two identifiers
    are ordered both ways exactly when their keys are equal.  Digit runs
    compare by value: ["1_2" < "1_10" < "2_1"], ["2_9" < "2_10"] and
    ["2" < "10"]. *)
Theorem natural_order_total_preorder
  (a b c : string) (ka kb kc : list token)
  (Ha : natural_sort_key a = Ok ka)
  (Hb : natural_sort_key b = Ok kb)
  (Hc : natural_sort_key c = Ok kc) :
  (exists r : bool, natural_lt a b = Ok r)
  /\ (natural_le a b \/ natural_le b a)
  /\ (natural_le a b -> natural_le b c -> natural_le a c)
  /\ (natural_le a b /\ natural_le b a <-> ka = kb)
  /\ natural_lt "1_2" "1_10" = Ok true
  /\ natural_lt "1_10" "2_1" = Ok true
  /\ natural_lt "2_9" "2_10" = Ok true
  /\ natural_lt "2" "10" = Ok true.
Proof.
  pose proof (natural_sort_key_shape _ _ Ha) as Sa.
  pose proof (natural_sort_key_shape _ _ Hb) as Sb.
  pose proof (natural_sort_key_shape _ _ Hc) as Sc.
  unfold natural_le.
  rewrite (natural_lt_keys _ _ _ _ Ha Hb), (natural_lt_keys _ _ _ _ Hb Ha),
    (natural_lt_keys _ _ _ _ Hc Hb), (natural_lt_keys _ _ _ _ Hc Ha).
  pose proof (key_lt_trichotomy _ _ Sa _ Sb) as Tab.
  split; [|split; [|split; [|split]]].
  - destruct Tab as [[H _]|[(_ & H & _)|[_ H]]]; eauto.
  - destruct Tab as [[_ H]|[(_ & _ & H)|[_ H]]]; auto.
  - intros Hab Hbc.
    destruct (key_lt_trichotomy _ _ Sc _ Sa) as [[Hca _]|[(_ & H & _)|[_ H]]]; auto.
    exfalso.
    destruct Tab as [[H _]|[(-> & _)|[H _]]].
    + pose proof (key_lt_trans _ _ _ Hca H). congruence.
    + congruence.
    + congruence.
  - split.
    + intros [Hab Hba].
      destruct Tab as [[H _]|[(E & _)|[H _]]]; [congruence | exact E | congruence].
    + intros ->.
      destruct (key_lt_trichotomy _ _ Sb _ Sb) as [[H1 H2]|[(_ & H & _)|[H1 H2]]];
        try congruence. now split.
  - repeat split; reflexivity.
Qed.

Lemma natural_order_total_preorder_witness :
  (natural_le "1" "01" /\ natural_le "01" "1"
   <-> [TStr ""; TInt 1; TStr ""] = [TStr ""; TInt 1; TStr ""])
  /\ (natural_le "2_9" "2_10" -> natural_le "2_10" "10" -> natural_le "2_9" "10").
Proof.
  split.
  - exact (proj1 (proj2 (proj2 (proj2
      (natural_order_total_preorder "1" "01" "2"
         [TStr ""; TInt 1; TStr ""] [TStr ""; TInt 1; TStr ""]
         [TStr ""; TInt 2; TStr ""] eq_refl eq_refl eq_refl))))).
  - exact (proj1 (proj2 (proj2
      (natural_order_total_preorder "2_9" "2_10" "10"
         [TStr ""; TInt 2; TStr "_"; TInt 9; TStr ""]
         [TStr ""; TInt 2; TStr "_"; TInt 10; TStr ""]
         [TStr ""; TInt 10; TStr ""] eq_refl eq_refl eq_refl)))).
Defined.

(** ** Dictionaries *)

Lemma dict_get_set {V : Type} (d : dict V) (k k' : string) (v : V) :
  dict_get (dict_set d k v) k' = if String.eqb k k' then Some v else dict_get d k'.
Proof.
  induction d as [|[k0 v0] d IH]; simpl.
  - reflexivity.
  - destruct (String.eqb k0 k) eqn:E0; simpl.
    + apply String.eqb_eq in E0. subst k0.
      now destruct (String.eqb k k').
    + rewrite IH. destruct (String.eqb k0 k') eqn:E1; [|reflexivity].
      apply String.eqb_eq in E1. subst k0. now rewrite String.eqb_sym, E0.
Qed.

Lemma dict_set_keys_in {V : Type} (d : dict V) (k k' : string) (v : V) :
  In k' (dict_keys (dict_set d k v)) <-> k' = k \/ In k' (dict_keys d).
Proof.
  induction d as [|[k0 v0] d IH]; simpl.
  - intuition.
  - destruct (String.eqb k0 k) eqn:E0; simpl.
    + apply String.eqb_eq in E0. subst k0. intuition.
    + rewrite IH. intuition.
Qed.

Lemma dict_set_keys_nodup {V : Type} (d : dict V) (k : string) (v : V) :
  NoDup (dict_keys d) -> NoDup (dict_keys (dict_set d k v)).
Proof.
  induction d as [|[k0 v0] d IH]; simpl; intros N.
  - constructor; [intros []|constructor].
  - inversion N as [|? ? Hn N']; subst.
    destruct (String.eqb k0 k) eqn:E0; simpl.
    + now constructor.
    + constructor; [|now apply IH].
      intros Hin. apply dict_set_keys_in in Hin as [->|Hin]; [|contradiction].
      now rewrite String.eqb_refl in E0.
Qed.

Lemma dict_update_keys_nodup {V : Type} (other d : dict V) :
  NoDup (dict_keys d) -> NoDup (dict_keys (dict_update d other)).
Proof.
  unfold dict_update. revert d.
  induction other as [|[k v] other IH]; simpl; intros d N; [exact N|].
  now apply IH, dict_set_keys_nodup.
Qed.

Lemma dict_of_pairs_nodup {V : Type} (pairs : list (string * V)) :
  NoDup (dict_keys (dict_of_pairs pairs)).
Proof. apply dict_update_keys_nodup. constructor. Qed.

Lemma dict_get_not_in {V : Type} (d : dict V) (k : string) :
  ~ In k (dict_keys d) -> dict_get d k = None.
Proof.
  induction d as [|[k0 v0] d IH]; simpl; intros N; [reflexivity|].
  destruct (String.eqb k0 k) eqn:E.
  - apply String.eqb_eq in E. subst. now destruct N; left.
  - apply IH. intros H. apply N. now right.
Qed.

(** With a mapping [other], [d.update(other)] holds at each key what
    [other] holds there, and what [d] held where [other] has no entry. *)
Lemma dict_get_update {V : Type} (other d : dict V) (k : string) :
  NoDup (dict_keys other) ->
  dict_get (dict_update d other) k
  = match dict_get other k with
    | Some v => Some v
    | None => dict_get d k
    end.
Proof.
  unfold dict_update. revert d.
  induction other as [|[k0 v0] other IH]; simpl; intros d N; [reflexivity|].
  inversion N as [|? ? Hn N']; subst.
  rewrite (IH _ N'), dict_get_set.
  destruct (String.eqb k0 k) eqn:E; [|reflexivity].
  apply String.eqb_eq in E. subst k0.
  now rewrite (dict_get_not_in _ _ Hn).
Qed.

(** ** What a page contributes *)

Lemma scan_once_lbrace_nodup (fuel : nat) (r : string) (d : dict json) (rest : string) :
  scan_once fuel (String lbrace r) = Ok (JObj d, rest) -> NoDup (dict_keys d).
Proof.
  destruct fuel as [|fuel]; simpl; [discriminate|].
  destruct (skip_ws r) as [|c1 r1]; [discriminate|].
  destruct (is_rbrace c1).
  - intros H. injection H as <- _. constructor.
  - destruct (Ascii.eqb c1 dquote); [|discriminate].
    destruct (object_pairs fuel r1 []) as [[pairs rest']|e]; [|discriminate].
    intros H. injection H as <- _. apply dict_of_pairs_nodup.
Qed.

Lemma json_loads_lbrace_nodup (r : string) (d : dict json) :
  json_loads (String lbrace r) = Ok (JObj d) -> NoDup (dict_keys d).
Proof.
  unfold json_loads.
  change (skip_ws (String lbrace r)) with (String lbrace r).
  destruct (scan_once _ (String lbrace r)) as [[v' rest]|e] eqn:E; [|discriminate].
  destruct (skip_ws rest); [|discriminate].
  intros H. injection H as ->. exact (scan_once_lbrace_nodup _ _ _ _ E).
Qed.

Arguments extract_json_from_text : simpl never.

(** [process_image_with_llm] raises nothing, and returns [None] or a
    [dict] that is not empty and holds each key once. *)
Lemma process_image_with_llm_returns (r : reply) :
  structured_data_of r = Ok None
  \/ exists d : dict json,
       structured_data_of r = Ok (Some (JObj d))
       /\ d <> [] /\ NoDup (dict_keys d).
Proof.
  unfold structured_data_of, process_image_with_llm, try_except, bind, lift.
  destruct r as [e | [|[text|type] rest]]; simpl; try (now left).
  match goal with
  | |- context [extract_json_from_text ?t ?l] =>
      destruct (extract_json_from_text_cases t l)
        as [log' [H | (span & d & S & L & H)]]; rewrite H
  end.
  - now left.
  - simpl. destruct d as [|kv d]; simpl; [now left|].
    right. exists (kv :: d). split; [reflexivity|]. split; [discriminate|].
    destruct (re_search_braces_starts _ _ S) as [r' ->].
    exact (json_loads_lbrace_nodup _ _ L).
Qed.

Lemma page_answers_wf (r : reply) (d : dict json) :
  page_answers r = Some d -> d <> [] /\ NoDup (dict_keys d).
Proof.
  unfold page_answers.
  destruct (process_image_with_llm_returns r) as [H | (d' & H & Hne & Hnd)]; rewrite H.
  - discriminate.
  - intros E. injection E as <-. now split.
Qed.

(** ** The pages of a survey and their merge *)

Lemma process_page_spec (first : bool) (st : dict json * list string) (r : reply) :
  process_page first st r
  = match page_answers r with
    | Some d => (dict_update (fst st) d,
                 if first then snd st ++ dict_keys d else snd st)
    | None => st
    end.
Proof.
  destruct st as [sd qs]. unfold process_page, page_answers.
  destruct (structured_data_of r) as [[[]|]|]; simpl; try reflexivity.
  now destruct first.
Qed.

Lemma nth_error_skipn {A : Type} (l : list A) (k : nat) :
  nth_error l k = hd_error (skipn k l).
Proof.
  revert l. induction k as [|k IH]; intros [|x l]; simpl; try reflexivity.
  apply IH.
Qed.

Lemma skipn_S_tl {A : Type} (l : list A) (k : nat) :
  skipn (S k) l = tl (skipn k l).
Proof.
  revert l. induction k as [|k IH]; intros [|x l]; try reflexivity.
  change (skipn (S (S k)) (x :: l)) with (skipn (S k) l).
  change (skipn (S k) (x :: l)) with (skipn k l). apply IH.
Qed.

(** The guarded loop over [range(survey_length)] visits the pages of the
    survey, in order. *)
Lemma guarded_loop_pages {A St : Type} (f : St -> A -> St) (l : list A) (i : nat) :
  forall (n k : nat) (st : St),
    fold_left
      (fun st j => match nth_error l (i + j) with
                   | Some r => f st r
                   | None => st
                   end)
      (seq k n) st
    = fold_left f (firstn n (skipn (i + k) l)) st.
Proof.
  induction n as [|n IH]; intros k st; simpl; [reflexivity|].
  rewrite IH, nth_error_skipn.
  replace (i + S k) with (S (i + k)) by lia.
  rewrite skipn_S_tl.
  destruct (skipn (i + k) l) as [|r rest]; simpl; [|reflexivity].
  now rewrite firstn_nil.
Qed.

Lemma fold_pages (first : bool) (pages : list reply) :
  forall (sd : dict json) (qs : list string),
    fold_left (process_page first) pages (sd, qs)
    = (fold_left dict_update (surviving pages) sd,
       if first then qs ++ flat_map dict_keys (surviving pages) else qs).
Proof.
  induction pages as [|r pages IH]; intros sd qs; cbn [fold_left surviving].
  - simpl. destruct first; [now rewrite app_nil_r | reflexivity].
  - rewrite process_page_spec. cbn [fst snd].
    destruct (page_answers r) as [d|]; [|apply IH].
    rewrite IH. cbn [fold_left flat_map].
    destruct first; [now rewrite <- app_assoc | reflexivity].
Qed.

Lemma collect_survey_spec (images : list reply) (survey_length i : nat)
  (qs : list string) :
  collect_survey images survey_length i qs
  = (merge_pages (surviving (survey_pages images survey_length i)),
     if Nat.eqb i 0
     then qs ++ flat_map dict_keys (surviving (survey_pages images survey_length i))
     else qs).
Proof.
  unfold collect_survey, survey_pages, merge_pages.
  rewrite (guarded_loop_pages (process_page (Nat.eqb i 0)) images i survey_length 0).
  rewrite Nat.add_0_r. apply fold_pages.
Qed.

Lemma fold_update_nodup (ds : list (dict json)) :
  forall sd : dict json,
    NoDup (dict_keys sd) -> NoDup (dict_keys (fold_left dict_update ds sd)).
Proof.
  induction ds as [|d ds IH]; simpl; intros sd N; [exact N|].
  now apply IH, dict_update_keys_nodup.
Qed.

Lemma fold_update_get (ds : list (dict json)) (q : string) :
  Forall (fun d => NoDup (dict_keys d)) ds ->
  forall sd : dict json,
    dict_get (fold_left dict_update ds sd) q
    = match last_entry ds q with
      | Some v => Some v
      | None => dict_get sd q
      end.
Proof.
  induction 1 as [|d ds Hd Hds IH]; simpl; intros sd; [reflexivity|].
  rewrite IH, (dict_get_update _ _ _ Hd).
  now destruct (last_entry ds q), (dict_get d q).
Qed.

Lemma surviving_nodup (pages : list reply) :
  Forall (fun d => NoDup (dict_keys d)) (surviving pages).
Proof.
  induction pages as [|r pages IH]; simpl; [constructor|].
  destruct (page_answers r) as [d|] eqn:E; [|exact IH].
  constructor; [|exact IH]. now apply (page_answers_wf r).
Qed.

(** C8.  The answers of the survey that starts at page [i] are the merge,
    in page order, of the mappings of its pages: the survey holds each
    identifier once, and holds for it the entry of the last page of the
    survey that has one.  Pages that were not extracted add nothing. *)
Theorem survey_answer_set_is_merge
  (images : list reply) (survey_length i : nat) (qs : list string) (q : string) :
  let survey_data := fst (collect_survey images survey_length i qs) in
  let pages := surviving (survey_pages images survey_length i) in
  survey_data = merge_pages pages
  /\ NoDup (dict_keys survey_data)
  /\ dict_get survey_data q = last_entry pages q.
Proof.
  cbv zeta. rewrite collect_survey_spec. cbn [fst]. unfold merge_pages.
  split; [reflexivity|]. split.
  - apply fold_update_nodup. constructor.
  - rewrite (fold_update_get _ q (surviving_nodup _)). simpl.
    now destruct (last_entry _ q).
Qed.

(** ** One turn of the outer loop *)

Section Run.

Variable set_iter : list string -> list string.

Lemma survey_step_spec (images : list reply) (survey_length : nat)
  (st : run_state) (i : nat) :
  survey_step set_iter images survey_length st i
  = (let pages := surviving (survey_pages images survey_length i) in
     qs' <- (if Nat.eqb i 0
             then finalize_structure set_iter
                    (question_structure st ++ flat_map dict_keys pages)
             else Ok (question_structure st)) ;;
     cells <- row_cells qs' (merge_pages pages) ;;
     Ok {| question_structure := qs';
           all_data := all_data st
                       ++ [JInt (Z.of_nat (i / survey_length + 1)) :: cells] |})%py.
Proof.
  unfold survey_step. rewrite collect_survey_spec. now destruct (Nat.eqb i 0).
Qed.

Lemma survey_step_later (images : list reply) (survey_length : nat)
  (st st' : run_state) (i : nat) :
  i <> 0 ->
  survey_step set_iter images survey_length st i = Ok st' ->
  question_structure st' = question_structure st.
Proof.
  intros Hi. rewrite survey_step_spec. cbv zeta.
  apply Nat.eqb_neq in Hi. rewrite Hi. simpl.
  destruct (row_cells _ _); simpl; [|discriminate].
  intros H. now injection H as <-.
Qed.

Lemma fold_later (images : list reply) (survey_length : nat) (starts : list nat) :
  Forall (fun i => i <> 0) starts ->
  forall st st' : run_state,
    fold_result (survey_step set_iter images survey_length) starts st = Ok st' ->
    question_structure st' = question_structure st.
Proof.
  induction 1 as [|i starts Hi Hs IH]; simpl; intros st st' H.
  - now injection H as <-.
  - destruct (survey_step set_iter images survey_length st i) as [st1|e] eqn:E;
      [|discriminate].
    rewrite (IH _ _ H). exact (survey_step_later _ _ _ _ _ Hi E).
Qed.

End Run.

Lemma later_starts (n k0 m : nat) :
  0 < n -> 0 < k0 -> Forall (fun i => i <> 0) (map (fun k => k * n) (seq k0 m)).
Proof.
  intros Hn Hk. apply Forall_forall. intros i Hi.
  apply in_map_iff in Hi as (k & <- & Hin). apply in_seq in Hin. nia.
Qed.

Lemma instances_pos (stop n : nat) : 0 < n -> 0 < stop -> 0 < instances stop n.
Proof.
  intros Hn Hs. unfold instances.
  apply Nat.div_str_pos. lia.
Qed.

Lemma py_range_step_pos (stop : nat) (step : Z) :
  (0 < step)%Z ->
  py_range_step stop step
  = Ok (map (fun k => k * Z.to_nat step) (seq 0 (instances stop (Z.to_nat step)))).
Proof.
  intros H. unfold py_range_step.
  destruct (Z.eqb_spec step 0); [lia|].
  destruct (Z.ltb_spec step 0); [lia|]. reflexivity.
Qed.

(** ** The schema *)

Lemma process_pdf_first_step
  (set_iter : list string -> list string) (images : list reply)
  (survey_length : Z) (t : csv_table) :
  (0 < survey_length)%Z ->
  images <> [] ->
  process_pdf set_iter images survey_length = Ok t ->
  finalize_structure set_iter (first_survey_keys images (Z.to_nat survey_length))
  = Ok (schema t).
Proof.
  intros HL Hne. unfold process_pdf. rewrite (py_range_step_pos _ _ HL). simpl.
  set (n := Z.to_nat survey_length). assert (Hn : 0 < n) by (unfold n; lia).
  assert (Hlen : 0 < List.length images) by (destruct images; simpl; [congruence|lia]).
  pose proof (instances_pos _ _ Hn Hlen) as Hi.
  destruct (instances (List.length images) n) as [|m]; [lia|].
  rewrite <- cons_seq. cbn [map fold_result]. rewrite survey_step_spec. cbv zeta.
  change (Nat.eqb (0 * n) 0) with true. cbn [question_structure app].
  change (survey_pages images n (0 * n)) with (survey_pages images n 0).
  fold (first_survey_keys images n).
  destruct (finalize_structure set_iter (first_survey_keys images n)) as [qs|e];
    simpl; [|discriminate].
  destruct (row_cells qs _) as [cells|e]; simpl; [|discriminate].
  match goal with
  | |- context [fold_result ?f ?l ?s] => destruct (fold_result f l s) as [st|e] eqn:F
  end; simpl; [|discriminate].
  intros H. injection H as <-. unfold schema. simpl. f_equal.
  symmetry. apply (fold_later _ _ _ _ (later_starts n 1 m Hn Nat.lt_0_1) _ _ F).
Qed.

(** C5.  The schema of a run is the result of the one
    [sorted(set(question_structure))] made when the pages of the first
    survey have been processed.  A turn of the loop for a later survey
    leaves [question_structure] as it found it, whatever identifiers its
    pages bring; so two documents that agree on the pages of the first
    survey have the same schema. *)
Theorem schema_fixed_after_first_survey
  (set_iter : list string -> list string) (images : list reply)
  (survey_length : Z) (t : csv_table)
  (HL : (0 < survey_length)%Z)
  (Hne : images <> [])
  (Hrun : process_pdf set_iter images survey_length = Ok t) :
  finalize_structure set_iter (first_survey_keys images (Z.to_nat survey_length))
  = Ok (schema t)
  /\ (forall (st st' : run_state) (i : nat),
        i <> 0 ->
        survey_step set_iter images (Z.to_nat survey_length) st i = Ok st' ->
        question_structure st' = question_structure st)
  /\ (forall (images' : list reply) (t' : csv_table),
        firstn (Z.to_nat survey_length) images'
        = firstn (Z.to_nat survey_length) images ->
        process_pdf set_iter images' survey_length = Ok t' ->
        schema t' = schema t).
Proof.
  split; [|split].
  - now apply process_pdf_first_step.
  - intros st st' i Hi. apply survey_step_later. exact Hi.
  - intros images' t' Hfirst Hrun'.
    assert (Hne' : images' <> []).
    { intros ->. rewrite firstn_nil in Hfirst. symmetry in Hfirst.
      destruct images as [|r images]; [congruence|].
      destruct (Z.to_nat survey_length) eqn:E; [lia|discriminate]. }
    pose proof (process_pdf_first_step _ _ _ _ HL Hne Hrun) as H1.
    pose proof (process_pdf_first_step _ _ _ _ HL Hne' Hrun') as H2.
    unfold first_survey_keys, survey_pages in H1, H2. simpl skipn in H1, H2.
    rewrite Hfirst in H2. congruence.
Qed.

(** ** Orders of iteration over a set *)

Lemma set_order_nil (set_iter : list string -> list string) :
  set_order set_iter -> set_iter [] = [].
Proof.
  intros H. destruct (H []) as [_ I].
  destruct (set_iter []) as [|x l]; [reflexivity|].
  now destruct (proj1 (I x) (or_introl eq_refl)).
Qed.

Lemma set_order_pair (set_iter : list string -> list string) (a b : string) :
  set_order set_iter -> a <> b ->
  set_iter [a; b] = [a; b] \/ set_iter [a; b] = [b; a].
Proof.
  intros H Hab. destruct (H [a; b]) as [N I].
  assert (Ia : In a (set_iter [a; b])) by (apply I; simpl; auto).
  assert (Ib : In b (set_iter [a; b])) by (apply I; simpl; auto).
  assert (E : forall x, In x (set_iter [a; b]) -> x = a \/ x = b).
  { intros x Hx. apply I in Hx. simpl in Hx. intuition. }
  destruct (set_iter [a; b]) as [|x [|y [|z l]]].
  - destruct Ia.
  - simpl in Ia, Ib. intuition congruence.
  - inversion N as [|? ? Nx _]; subst. simpl in Nx.
    destruct (E x (or_introl eq_refl)), (E y (or_intror (or_introl eq_refl)));
      subst; auto; exfalso; apply Nx; auto.
  - exfalso.
    inversion N as [|? ? Nx N1]; subst. inversion N1 as [|? ? Ny _]; subst.
    simpl in Nx, Ny.
    destruct (E x (or_introl eq_refl)),
             (E y (or_intror (or_introl eq_refl))),
             (E z (or_intror (or_intror (or_introl eq_refl)))); subst; intuition.
Qed.

Lemma first_seen_set_order : set_order first_seen.
Proof.
  intros l. split.
  - apply NoDup_nodup.
  - intros x. apply nodup_In.
Qed.

(** ** A first survey without identifiers *)

Lemma surviving_not_empty (pages : list reply) :
  Forall (fun d => d <> []) (surviving pages).
Proof.
  induction pages as [|r pages IH]; simpl; [constructor|].
  destruct (page_answers r) as [d|] eqn:E; [|exact IH].
  constructor; [|exact IH]. now apply (page_answers_wf r).
Qed.

Lemma no_keys_no_pages (pages : list reply) :
  flat_map dict_keys (surviving pages) = [] -> surviving pages = [].
Proof.
  pose proof (surviving_not_empty pages) as F.
  destruct (surviving pages) as [|d ds]; [reflexivity|].
  inversion F as [|? ? Hd _]; subst. simpl.
  destruct d as [|[k v] d]; [congruence | discriminate].
Qed.

Section EmptySchema.

Variable set_iter : list string -> list string.
Variable images : list reply.
Variable n : nat.
Hypothesis set_iter_nil : set_iter [] = [].
Hypothesis n_pos : 0 < n.
Hypothesis first_empty : surviving (survey_pages images n 0) = [].

Lemma survey_step_empty (data : list (list json)) (k : nat) :
  survey_step set_iter images n
    {| question_structure := []; all_data := data |} (k * n)
  = Ok {| question_structure := [];
          all_data := data ++ [[JInt (Z.of_nat (k + 1))]] |}.
Proof.
  rewrite survey_step_spec. cbv zeta. cbn [question_structure all_data app].
  rewrite Nat.div_mul by lia.
  destruct k as [|k].
  - cbn [Nat.mul Nat.eqb]. rewrite first_empty. cbn [flat_map].
    unfold finalize_structure. rewrite set_iter_nil. reflexivity.
  - assert (E : Nat.eqb (S k * n) 0 = false) by (apply Nat.eqb_neq; nia).
    rewrite E. reflexivity.
Qed.

Lemma fold_empty (m : nat) :
  forall (k0 : nat) (data : list (list json)),
    fold_result (survey_step set_iter images n)
      (map (fun k => k * n) (seq k0 m))
      {| question_structure := []; all_data := data |}
    = Ok {| question_structure := [];
            all_data := data ++ map (fun k => [JInt (Z.of_nat (k + 1))]) (seq k0 m) |}.
Proof.
  induction m as [|m IH]; intros k0 data; cbn [seq map fold_result].
  - now rewrite app_nil_r.
  - rewrite survey_step_empty, IH. now rewrite <- app_assoc.
Qed.

End EmptySchema.

(** C9.  When the first survey yields no identifier, the run returns: the
    schema is empty, the header is [response_id] alone, and there is one
    row per survey, made of its response id and no answer. *)
Theorem empty_first_survey_empty_schema
  (set_iter : list string -> list string) (images : list reply) (survey_length : Z)
  (Hset : set_order set_iter)
  (HL : (0 < survey_length)%Z)
  (Hnone : first_survey_keys images (Z.to_nat survey_length) = []) :
  process_pdf set_iter images survey_length
  = Ok {| header := ["response_id"];
          rows := map (fun k => [JInt (Z.of_nat (k + 1))])
                    (seq 0 (instances (List.length images) (Z.to_nat survey_length))) |}.
Proof.
  unfold process_pdf. rewrite (py_range_step_pos _ _ HL). cbn [pybind].
  rewrite (fold_empty set_iter images (Z.to_nat survey_length)
             (set_order_nil _ Hset) ltac:(lia) (no_keys_no_pages _ Hnone)).
  reflexivity.
Qed.

(** ** The end-to-end scenario *)

(** C1.  Four pages in surveys of two: the pages yield
    [{"1_1": {"question": "Yes", "answer": true}}],
    [{"1_2": {"question": "No", "answer": false}}],
    [{"1_1": {"question": "Yes", "answer": false}}] and nothing.  Whatever
    the order of iteration over the set of identifiers, the schema is
    [["1_1", "1_2"]] and the rows are [(1, true, false)] and
    [(2, false, "")]. *)
Theorem end_to_end_scenario
  (set_iter : list string -> list string) (p1 p2 p3 p4 : reply)
  (Hset : set_order set_iter)
  (H1 : page_answers p1 = Some [("1_1", answer_entry "Yes" (JBool true))])
  (H2 : page_answers p2 = Some [("1_2", answer_entry "No" (JBool false))])
  (H3 : page_answers p3 = Some [("1_1", answer_entry "Yes" (JBool false))])
  (H4 : page_answers p4 = None) :
  process_pdf set_iter [p1; p2; p3; p4] 2 = Ok scenario_table
  /\ schema scenario_table = ["1_1"; "1_2"].
Proof.
  split; [|reflexivity].
  unfold process_pdf.
  change (py_range_step (List.length [p1; p2; p3; p4]) 2) with (Ok [0; 2]).
  cbn [pybind fold_result]. rewrite survey_step_spec. cbv zeta.
  change (survey_pages [p1; p2; p3; p4] (Z.to_nat 2) 0) with [p1; p2].
  cbn [surviving]. rewrite H1, H2. cbn [Nat.eqb question_structure app flat_map dict_keys map fst].
  assert (F : finalize_structure set_iter ["1_1"; "1_2"] = Ok ["1_1"; "1_2"]).
  { unfold finalize_structure.
    destruct (set_order_pair set_iter "1_1" "1_2" Hset ltac:(discriminate)) as [->| ->];
      reflexivity. }
  rewrite F. cbn [pybind].
  match goal with
  | |- context [row_cells ?qs ?sd] =>
      change (row_cells qs sd) with (Ok [JBool true; JBool false])
  end.
  cbn [pybind]. rewrite survey_step_spec. cbv zeta.
  change (survey_pages [p1; p2; p3; p4] (Z.to_nat 2) 2) with [p3; p4].
  cbn [surviving]. rewrite H3, H4. reflexivity.
Qed.

(** ** Sample pages *)

Lemma end_to_end_scenario_witness :
  process_pdf first_seen scenario_images 2 = Ok scenario_table
  /\ schema scenario_table = ["1_1"; "1_2"].
Proof.
  unfold scenario_images.
  apply (end_to_end_scenario first_seen _ _ _ _ first_seen_set_order);
    vm_compute; reflexivity.
Defined.

Lemma schema_fixed_after_first_survey_witness :
  finalize_structure first_seen (first_survey_keys scenario_images 2)
  = Ok ["1_1"; "1_2"].
Proof.
  refine (proj1 (schema_fixed_after_first_survey first_seen scenario_images 2
                   scenario_table _ _ _)).
  - reflexivity.
  - discriminate.
  - vm_compute. reflexivity.
Defined.

Lemma empty_first_survey_empty_schema_witness :
  process_pdf first_seen unread_first_survey 2
  = Ok {| header := ["response_id"]; rows := [[JInt 1]; [JInt 2]; [JInt 3]] |}.
Proof.
  refine (empty_first_survey_empty_schema first_seen unread_first_survey 2
            first_seen_set_order _ _).
  - reflexivity.
  - vm_compute. reflexivity.
Defined.

(** ** An entry that is not a mapping *)

Lemma set_order_single (set_iter : list string -> list string) (a : string) :
  set_order set_iter -> set_iter [a] = [a].
Proof.
  intros H. destruct (H [a]) as [N I].
  assert (Ia : In a (set_iter [a])) by (apply I; now left).
  assert (E : forall x, In x (set_iter [a]) -> x = a).
  { intros x Hx. apply I in Hx. destruct Hx as [->|[]]. reflexivity. }
  destruct (set_iter [a]) as [|x [|y l]].
  - destruct Ia.
  - now rewrite (E x (or_introl eq_refl)).
  - exfalso. inversion N as [|? ? Nx _]; subst. apply Nx.
    rewrite (E x (or_introl eq_refl)), (E y (or_intror (or_introl eq_refl))).
    now left.
Qed.

(** C6, at the failing input.  The page text [{"2": "Blue"}] is extracted
    to a mapping whose entry for ["2"] is a text.  For the schema [["2"]]
    the row materializer then raises [AttributeError]: it gives neither
    the placeholder nor any other cell. *)
Theorem row_cells_raises_on_flat_answer :
  page_answers (text_page flat_answer_text) = Some [("2", JStr "Blue")]
  /\ row_cells ["2"] [("2", JStr "Blue")]
     = Raise (AttributeError "object has no attribute 'get'").
Proof. split; vm_compute; reflexivity. Qed.

(** C7, at the failing input.  A survey of two pages: the first is not
    extracted, the second is extracted to [{"2": "Blue"}].  The run
    raises [AttributeError] while it makes the row of the survey, so the
    survey gets no row and no table is written. *)
Theorem run_aborts_on_flat_answer
  (set_iter : list string -> list string) (Hset : set_order set_iter) :
  page_answers (text_page "I cannot read this page.") = None
  /\ process_pdf set_iter
       [text_page "I cannot read this page."; text_page flat_answer_text] 2
     = Raise (AttributeError "object has no attribute 'get'").
Proof.
  split; [vm_compute; reflexivity|].
  unfold process_pdf.
  match goal with
  | |- context [py_range_step ?n ?s] => change (py_range_step n s) with (Ok [0])
  end.
  cbn [pybind fold_result]. rewrite survey_step_spec. cbv zeta.
  match goal with
  | |- context [surviving ?p] =>
      change (surviving p) with [[("2", JStr "Blue")]]
  end.
  cbn [Nat.eqb question_structure app flat_map dict_keys map fst].
  unfold finalize_structure. rewrite (set_order_single _ _ Hset).
  reflexivity.
Qed.

Lemma run_aborts_on_flat_answer_witness :
  process_pdf first_seen
    [text_page "I cannot read this page."; text_page flat_answer_text] 2
  = Raise (AttributeError "object has no attribute 'get'").
Proof.
  exact (proj2 (run_aborts_on_flat_answer first_seen first_seen_set_order)).
Defined.

(** ** Rows from entries that are mappings *)

Lemma row_cells_cells (qs : list string) (survey_data : dict json) :
  mapping_entries survey_data qs ->
  row_cells qs survey_data = Ok (map (cell_of survey_data) qs).
Proof.
  unfold row_cells. induction qs as [|q qs IH]; intros H; simpl; [reflexivity|].
  assert (Hq : answer_cell survey_data q = Ok (cell_of survey_data q)).
  { unfold answer_cell, cell_of.
    destruct (dict_get survey_data q) as [v|] eqn:E; [|reflexivity].
    destruct (H q v (or_introl eq_refl) E) as [entry ->].
    now destruct (dict_get entry "answer"). }
  rewrite Hq, IH; [reflexivity|].
  intros q' v Hin. apply H. now right.
Qed.

(** X1.  When the entries under the identifiers of the schema are
    mappings, the row materializer returns one cell per identifier, in the order of
    the schema: the answer of the entry, or [""] when the identifier has
    no entry or the entry no ['answer']. *)
Theorem row_cells_of_mapping_entries
  (qs : list string) (survey_data : dict json)
  (H : mapping_entries survey_data qs) :
  row_cells qs survey_data = Ok (map (cell_of survey_data) qs)
  /\ List.length (map (cell_of survey_data) qs) = List.length qs.
Proof.
  split; [now apply row_cells_cells | apply length_map].
Qed.

Lemma row_cells_of_mapping_entries_witness :
  row_cells ["1_1"; "1_2"; "2"]
    [("1_1", answer_entry "Yes" (JBool true)); ("2", JObj [("question", JStr "Name")])]
  = Ok [JBool true; JStr ""; JStr ""].
Proof.
  refine (proj1 (row_cells_of_mapping_entries ["1_1"; "1_2"; "2"]
            [("1_1", answer_entry "Yes" (JBool true));
             ("2", JObj [("question", JStr "Name")])] _)).
  intros q v _. cbn [dict_get].
  destruct (String.eqb "1_1" q).
  - intros E. injection E as <-. now eexists.
  - destruct (String.eqb "2" q); [|discriminate].
    intros E. injection E as <-. now eexists.
Defined.

(** ** [sorted] on natural-sort keys *)

Lemma key_le_trans (b : bool) (ka kb kc : list token) :
  key_shape b ka -> key_shape b kb -> key_shape b kc ->
  key_le ka kb -> key_le kb kc -> key_le ka kc.
Proof.
  unfold key_le. intros Sa Sb Sc Hab Hbc.
  destruct (key_lt_trichotomy _ _ Sc _ Sa) as [[Hca _]|[(_ & H & _)|[_ H]]]; auto.
  exfalso.
  destruct (key_lt_trichotomy _ _ Sa _ Sb) as [[H _]|[(-> & _)|[H _]]].
  - pose proof (key_lt_trans _ _ _ Hca H). congruence.
  - congruence.
  - congruence.
Qed.

Section SortedKeys.

Context {A : Type}.

Lemma insert_sorted_ok (kx : list token) (x : A) (l : list (list token * A)) :
  key_shape false kx ->
  Forall shaped l ->
  StronglySorted decorated_le l ->
  exists r : list (list token * A),
    insert_sorted key_lt kx x l = Ok r
    /\ Forall shaped r
    /\ StronglySorted decorated_le r
    /\ Permutation r ((kx, x) :: l).
Proof.
  intros Sx. induction l as [|[ky y] l IH]; intros Sl Ss; simpl.
  - exists [(kx, x)].
    split; [reflexivity|]. split; [|split].
    + constructor; [exact Sx|constructor].
    + constructor; constructor.
    + reflexivity.
  - inversion Sl as [|? ? Sy Sl']; subst.
    unfold shaped in Sy. cbn [fst] in Sy.
    apply StronglySorted_inv in Ss as [Ss' Hy].
    assert (Keep : key_lt ky kx = Ok false ->
                   Forall shaped ((kx, x) :: (ky, y) :: l)
                   /\ StronglySorted decorated_le ((kx, x) :: (ky, y) :: l)).
    { intros Hle. split.
      - constructor; [exact Sx|exact Sl].
      - constructor; [now constructor|].
        constructor; [exact Hle|].
        rewrite Forall_forall in Hy, Sl' |- *. intros z Hz.
        exact (key_le_trans _ _ _ _ Sx Sy (Sl' z Hz) Hle (Hy z Hz)). }
    destruct (key_lt_trichotomy _ _ Sy _ Sx) as [[Hlt Hge]|[(_ & Hle & Hge)|[Hgt Hle]]].
    + rewrite Hlt. destruct (IH Sl' Ss') as (r & -> & Sr & Ssr & P).
      exists ((ky, y) :: r).
      split; [reflexivity|]. split; [|split].
      * now constructor.
      * constructor; [exact Ssr|].
        apply (Permutation_Forall (Permutation_sym P)).
        constructor; [exact Hge | exact Hy].
      * rewrite P. apply perm_swap.
    + rewrite Hle. exists ((kx, x) :: (ky, y) :: l).
      destruct (Keep Hle) as [K1 K2]. now repeat split.
    + rewrite Hle. exists ((kx, x) :: (ky, y) :: l).
      destruct (Keep Hle) as [K1 K2]. now repeat split.
Qed.

Lemma sort_decorated_ok (l : list (list token * A)) :
  Forall shaped l ->
  exists r : list (list token * A),
    sort_decorated key_lt l = Ok r
    /\ Forall shaped r
    /\ StronglySorted decorated_le r
    /\ Permutation r l.
Proof.
  induction l as [|[kx x] l IH]; intros Sl; simpl.
  - exists []. split; [reflexivity|]. repeat split; constructor.
  - inversion Sl as [|? ? Sx Sl']; subst.
    unfold shaped in Sx. cbn [fst] in Sx.
    destruct (IH Sl') as (r & -> & Sr & Ssr & P).
    destruct (insert_sorted_ok kx x r Sx Sr Ssr) as (r' & -> & Sr' & Ssr' & P').
    exists r'. split; [reflexivity|]. split; [exact Sr'|]. split; [exact Ssr'|].
    rewrite P'. now constructor.
Qed.

End SortedKeys.

Lemma decorate_inv (l : list string) :
  forall dec : list (list token * string),
    map_result decorate l = Ok dec -> map snd dec = l /\ Forall keyed dec.
Proof.
  induction l as [|x l IH]; simpl; intros dec H.
  - injection H as <-. split; constructor.
  - unfold decorate at 1 in H.
    destruct (natural_sort_key x) as [k|e] eqn:K; [|discriminate].
    destruct (map_result decorate l) as [dec'|e]; [|discriminate].
    injection H as <-. destruct (IH dec' eq_refl) as [M F].
    split; [simpl; now rewrite M | now constructor].
Qed.

Lemma decorate_defined (l : list string) :
  keys_computed l -> exists dec : list (list token * string), map_result decorate l = Ok dec.
Proof.
  induction 1 as [|x l [k K] _ [dec D]]; simpl.
  - now eexists.
  - unfold decorate at 1. rewrite K, D. now eexists.
Qed.

Lemma keyed_sorted (r : list (list token * string)) :
  Forall keyed r ->
  StronglySorted decorated_le r ->
  StronglySorted natural_le (map snd r).
Proof.
  induction r as [|[k x] r IH]; intros F S; simpl; [constructor|].
  inversion F as [|? ? Kx F']; subst.
  apply StronglySorted_inv in S as [S' Hx].
  constructor; [now apply IH|].
  rewrite Forall_forall in Hx, F'. apply Forall_forall. intros y Hy.
  apply in_map_iff in Hy as ([k' y'] & <- & Hin).
  pose proof (F' _ Hin) as Ky. unfold keyed in Kx, Ky. cbn [fst snd] in *.
  unfold natural_le. rewrite (natural_lt_keys _ _ _ _ Ky Kx).
  exact (Hx _ Hin).
Qed.

(** When [sorted(l, key=natural_sort_key)] returns, it returns the
    elements of [l], each as often as [l] has it, ordered by
    [natural_le]. *)
Lemma py_sorted_natural_inv (l r : list string) :
  py_sorted key_lt natural_sort_key l = Ok r ->
  Permutation r l /\ StronglySorted natural_le r.
Proof.
  unfold py_sorted. fold decorate.
  destruct (map_result decorate l) as [dec|e] eqn:D; [|discriminate].
  destruct (decorate_inv _ _ D) as [M F].
  assert (Sh : Forall shaped dec).
  { apply Forall_forall. intros p Hp. rewrite Forall_forall in F.
    exact (natural_sort_key_shape _ _ (F p Hp)). }
  destruct (sort_decorated_ok dec Sh) as (r' & -> & _ & Ss & P).
  intros H. injection H as <-. split.
  - rewrite <- M. now apply Permutation_map.
  - apply keyed_sorted; [|exact Ss].
    exact (Permutation_Forall (Permutation_sym P) F).
Qed.

Lemma py_sorted_natural_defined (l : list string) :
  keys_computed l -> exists r : list string, py_sorted key_lt natural_sort_key l = Ok r.
Proof.
  intros H. unfold py_sorted. fold decorate.
  destruct (decorate_defined _ H) as [dec D]. rewrite D.
  destruct (decorate_inv _ _ D) as [M F].
  assert (Sh : Forall shaped dec).
  { apply Forall_forall. intros p Hp. rewrite Forall_forall in F.
    exact (natural_sort_key_shape _ _ (F p Hp)). }
  destruct (sort_decorated_ok dec Sh) as (r' & -> & _). now eexists.
Qed.

(** ** The schema is the sorted set of the first survey's identifiers *)

(** X3.  For a run that completes on a document with at least one
    page, the schema holds each identifier of the first survey once, and no other,
    in the order of [natural_le]. *)
Theorem schema_is_sorted_set
  (set_iter : list string -> list string) (images : list reply)
  (survey_length : Z) (t : csv_table)
  (Hset : set_order set_iter)
  (HL : (0 < survey_length)%Z)
  (Hne : images <> [])
  (Hrun : process_pdf set_iter images survey_length = Ok t) :
  NoDup (schema t)
  /\ (forall q : string,
        In q (schema t) <-> In q (first_survey_keys images (Z.to_nat survey_length)))
  /\ StronglySorted natural_le (schema t).
Proof.
  pose proof (process_pdf_first_step _ _ _ _ HL Hne Hrun) as F.
  unfold finalize_structure in F.
  destruct (py_sorted_natural_inv _ _ F) as [P S].
  destruct (Hset (first_survey_keys images (Z.to_nat survey_length))) as [N I].
  split; [|split].
  - exact (Permutation_NoDup (Permutation_sym P) N).
  - intros q. rewrite <- I. split; apply Permutation_in; [exact P | exact (Permutation_sym P)].
  - exact S.
Qed.

Lemma schema_is_sorted_set_witness :
  NoDup ["1_1"; "1_2"; "2"]
  /\ (forall q : string,
        In q ["1_1"; "1_2"; "2"] <-> In q (first_survey_keys two_page_survey 2))
  /\ StronglySorted natural_le ["1_1"; "1_2"; "2"].
Proof.
  refine (schema_is_sorted_set first_seen two_page_survey 2 two_page_table
            first_seen_set_order _ _ _).
  - reflexivity.
  - discriminate.
  - vm_compute. reflexivity.
Defined.

(** ** Runs on pages whose entries are mappings *)

Lemma last_entry_in (ds : list (dict json)) (q : string) (v : json) :
  last_entry ds q = Some v -> exists d : dict json, In d ds /\ dict_get d q = Some v.
Proof.
  induction ds as [|d ds IH]; simpl; [discriminate|].
  destruct (last_entry ds q) as [w|].
  - intros H. destruct (IH H) as (d' & Hin & Hd). exists d'. split; [now right|exact Hd].
  - intros H. exists d. split; [now left|exact H].
Qed.

Lemma surviving_in (pages : list reply) (d : dict json) :
  In d (surviving pages) -> exists r : reply, In r pages /\ page_answers r = Some d.
Proof.
  induction pages as [|r pages IH]; simpl; [intros []|].
  destruct (page_answers r) as [d'|] eqn:E.
  - intros [<-|H].
    + exists r. split; [now left|exact E].
    + destruct (IH H) as (r' & Hin & Hr). exists r'. split; [now right|exact Hr].
  - intros H. destruct (IH H) as (r' & Hin & Hr). exists r'. split; [now right|exact Hr].
Qed.

Lemma survey_pages_in (images : list reply) (n i : nat) (r : reply) :
  In r (survey_pages images n i) -> In r images.
Proof.
  unfold survey_pages. intros H.
  rewrite <- (firstn_skipn i images). apply in_or_app. right.
  rewrite <- (firstn_skipn n (skipn i images)). apply in_or_app. now left.
Qed.

Lemma survey_mapping_entries (images : list reply) (n i : nat) (qs : list string) :
  mapping_pages images ->
  mapping_entries (merge_pages (surviving (survey_pages images n i))) qs.
Proof.
  intros M q v _ G. unfold merge_pages in G.
  rewrite (fold_update_get _ q (surviving_nodup _)) in G. simpl in G.
  destruct (last_entry _ q) as [w|] eqn:L; [|discriminate].
  injection G as ->.
  destruct (last_entry_in _ _ _ L) as (d & Hd & Gd).
  destruct (surviving_in _ _ Hd) as (r & Hr & Pr).
  exact (M r d q v (survey_pages_in _ _ _ _ Hr) Pr Gd).
Qed.

Lemma instances_zero (stop n : nat) : 0 < n -> instances stop n = 0 -> stop = 0.
Proof.
  intros Hn H. destruct stop as [|stop]; [reflexivity|].
  pose proof (instances_pos (S stop) n Hn ltac:(lia)). lia.
Qed.

Section MappingRun.

Variable set_iter : list string -> list string.
Variable images : list reply.
Variable n : nat.
Variable qs : list string.
Hypothesis n_pos : 0 < n.
Hypothesis pages_ok : mapping_pages images.

Lemma survey_step_first (data : list (list json)) :
  finalize_structure set_iter (first_survey_keys images n) = Ok qs ->
  survey_step set_iter images n {| question_structure := []; all_data := data |} 0
  = Ok {| question_structure := qs;
          all_data := data ++ [survey_row images n qs 0] |}.
Proof.
  intros F. rewrite survey_step_spec. cbv zeta.
  cbn [Nat.eqb question_structure all_data app].
  fold (first_survey_keys images n). rewrite F. cbn [pybind].
  rewrite (row_cells_cells _ _ (survey_mapping_entries images n 0 qs pages_ok)).
  cbn [pybind]. rewrite Nat.Div0.div_0_l. reflexivity.
Qed.

Lemma survey_step_next (data : list (list json)) (k : nat) :
  0 < k ->
  survey_step set_iter images n {| question_structure := qs; all_data := data |} (k * n)
  = Ok {| question_structure := qs;
          all_data := data ++ [survey_row images n qs k] |}.
Proof.
  intros Hk. rewrite survey_step_spec. cbv zeta.
  cbn [question_structure all_data].
  assert (E : Nat.eqb (k * n) 0 = false) by (apply Nat.eqb_neq; nia).
  rewrite E. cbn [pybind].
  rewrite (row_cells_cells _ _ (survey_mapping_entries images n (k * n) qs pages_ok)).
  cbn [pybind]. rewrite Nat.div_mul by lia. reflexivity.
Qed.

Lemma fold_next (m : nat) :
  forall (k0 : nat) (data : list (list json)),
    0 < k0 ->
    fold_result (survey_step set_iter images n)
      (map (fun k => k * n) (seq k0 m))
      {| question_structure := qs; all_data := data |}
    = Ok {| question_structure := qs;
            all_data := data ++ map (survey_row images n qs) (seq k0 m) |}.
Proof.
  induction m as [|m IH]; intros k0 data Hk; cbn [seq map fold_result].
  - now rewrite app_nil_r.
  - rewrite (survey_step_next _ _ Hk), IH by lia. now rewrite <- app_assoc.
Qed.

End MappingRun.

(** X2.  When every entry of every extracted page is a mapping and the
    key of every identifier of the first survey is computed, the run completes
    whatever pages fail: the schema is the sorted set of the first
    survey's identifiers and there is exactly one row per survey, the
    last and short one included, built from the merge of the pages of the
    survey that were extracted. *)
Theorem run_completes_on_mapping_pages
  (set_iter : list string -> list string) (images : list reply) (survey_length : Z)
  (Hset : set_order set_iter)
  (HL : (0 < survey_length)%Z)
  (Hkeys : keys_computed (first_survey_keys images (Z.to_nat survey_length)))
  (Hmap : mapping_pages images) :
  exists qs : list string,
    finalize_structure set_iter (first_survey_keys images (Z.to_nat survey_length))
    = Ok qs
    /\ process_pdf set_iter images survey_length
       = Ok {| header := "response_id" :: qs;
               rows := map (survey_row images (Z.to_nat survey_length) qs)
                         (seq 0 (instances (List.length images)
                                   (Z.to_nat survey_length))) |}
    /\ List.length (map (survey_row images (Z.to_nat survey_length) qs)
                      (seq 0 (instances (List.length images) (Z.to_nat survey_length))))
       = instances (List.length images) (Z.to_nat survey_length).
Proof.
  set (n := Z.to_nat survey_length). assert (Hn : 0 < n) by (unfold n; lia).
  destruct (Hset (first_survey_keys images n)) as [_ I].
  assert (K : keys_computed (set_iter (first_survey_keys images n))).
  { apply Forall_forall. intros q Hq. apply I in Hq.
    unfold keys_computed in Hkeys. rewrite Forall_forall in Hkeys. now apply Hkeys. }
  destruct (py_sorted_natural_defined _ K) as [qs F].
  exists qs. split; [exact F|]. split; [|now rewrite length_map, length_seq].
  unfold process_pdf. rewrite (py_range_step_pos _ _ HL). fold n. cbn [pybind].
  destruct (instances (List.length images) n) as [|m] eqn:E.
  - apply (instances_zero _ _ Hn) in E.
    destruct images as [|r l]; [|discriminate]. simpl.
    unfold first_survey_keys, survey_pages in F. rewrite skipn_nil, firstn_nil in F.
    simpl in F. unfold py_sorted in F. rewrite (set_order_nil _ Hset) in F.
    simpl in F. injection F as <-. reflexivity.
  - rewrite <- cons_seq. cbn [map fold_result].
    change (0 * n) with 0.
    rewrite (survey_step_first set_iter images n qs Hmap [] F).
    rewrite (fold_next set_iter images n qs Hn Hmap m 1 _ Nat.lt_0_1).
    reflexivity.
Qed.

Lemma five_pages_mapping : mapping_pages five_pages.
Proof.
  intros r d q v Hr.
  repeat (destruct Hr as [<-|Hr]);
    try (vm_compute; discriminate);
    try (intros E; vm_compute in E; injection E as <-; cbn [dict_get];
         destruct (String.eqb _ q); [|discriminate];
         intros G; injection G as <-; now eexists).
  destruct Hr.
Qed.

Lemma run_completes_on_mapping_pages_witness :
  exists qs : list string,
    finalize_structure first_seen (first_survey_keys five_pages (Z.to_nat 2)) = Ok qs
    /\ process_pdf first_seen five_pages 2
       = Ok {| header := "response_id" :: qs;
               rows := map (survey_row five_pages (Z.to_nat 2) qs)
                         (seq 0 (instances (List.length five_pages) (Z.to_nat 2))) |}
    /\ List.length (map (survey_row five_pages (Z.to_nat 2) qs)
                      (seq 0 (instances (List.length five_pages) (Z.to_nat 2))))
       = instances (List.length five_pages) (Z.to_nat 2).
Proof.
  refine (run_completes_on_mapping_pages first_seen five_pages 2
            first_seen_set_order _ _ five_pages_mapping).
  - reflexivity.
  - repeat constructor. now eexists.
Defined.

(** * Further properties *)

(** ** [process_pdf] as a function of the pages *)

Lemma map_result_length {A B : Type} (f : A -> pyresult B) (l : list A) :
  forall r : list B, map_result f l = Ok r -> List.length r = List.length l.
Proof.
  induction l as [|x l IH]; simpl; intros r H.
  - now injection H as <-.
  - destruct (f x) as [y|e]; [|discriminate].
    destruct (map_result f l) as [ys|e]; [|discriminate].
    injection H as <-. simpl. now rewrite (IH ys eq_refl).
Qed.

Lemma map_result_nth {A B : Type} (f : A -> pyresult B) (l : list A) :
  forall (r : list B) (i : nat) (x : A),
    map_result f l = Ok r -> nth_error l i = Some x ->
    exists y : B, nth_error r i = Some y /\ f x = Ok y.
Proof.
  induction l as [|a l IH]; simpl; intros r i x H Hi.
  - destruct i; discriminate.
  - destruct (f a) as [b|e] eqn:Fa; [|discriminate].
    destruct (map_result f l) as [ys|e]; [|discriminate].
    injection H as <-. destruct i as [|i]; simpl in *.
    + injection Hi as <-. now exists b.
    + exact (IH ys i x eq_refl Hi).
Qed.

Section Functional.

Variable set_iter : list string -> list string.
Variable images : list reply.
Variable n : nat.
Hypothesis n_pos : 0 < n.

Lemma survey_step_first_row (data : list (list json)) :
  survey_step set_iter images n {| question_structure := []; all_data := data |} 0
  = match finalize_structure set_iter (first_survey_keys images n) with
    | Raise e => Raise e
    | Ok qs =>
        match row_of images n qs 0 with
        | Raise e => Raise e
        | Ok row => Ok {| question_structure := qs; all_data := data ++ [row] |}
        end
    end.
Proof.
  rewrite survey_step_spec. cbv zeta.
  cbn [Nat.eqb question_structure all_data app].
  fold (first_survey_keys images n).
  destruct (finalize_structure set_iter (first_survey_keys images n)) as [qs|e];
    [|reflexivity].
  cbn [pybind]. unfold row_of. cbn [Nat.mul].
  destruct (row_cells qs _) as [cells|e]; [|reflexivity].
  cbn [pybind]. now rewrite Nat.Div0.div_0_l.
Qed.

Lemma survey_step_later_row (qs : list string) (data : list (list json)) (k : nat) :
  0 < k ->
  survey_step set_iter images n {| question_structure := qs; all_data := data |} (k * n)
  = match row_of images n qs k with
    | Raise e => Raise e
    | Ok row => Ok {| question_structure := qs; all_data := data ++ [row] |}
    end.
Proof.
  intros Hk. rewrite survey_step_spec. cbv zeta. cbn [question_structure all_data].
  assert (E : Nat.eqb (k * n) 0 = false) by (apply Nat.eqb_neq; nia).
  rewrite E. cbn [pybind]. unfold row_of.
  destruct (row_cells qs _) as [cells|e]; [|reflexivity].
  cbn [pybind]. now rewrite Nat.div_mul by lia.
Qed.

Lemma fold_later_rows (qs : list string) (m : nat) :
  forall (k0 : nat) (data : list (list json)),
    0 < k0 ->
    fold_result (survey_step set_iter images n)
      (map (fun k => k * n) (seq k0 m))
      {| question_structure := qs; all_data := data |}
    = match map_result (row_of images n qs) (seq k0 m) with
      | Raise e => Raise e
      | Ok more => Ok {| question_structure := qs; all_data := data ++ more |}
      end.
Proof.
  induction m as [|m IH]; intros k0 data Hk; cbn [seq map fold_result map_result].
  - now rewrite app_nil_r.
  - rewrite (survey_step_later_row _ _ _ Hk).
    destruct (row_of images n qs k0) as [row|e]; [|reflexivity].
    rewrite IH by lia.
    destruct (map_result (row_of images n qs) (seq (S k0) m)) as [more|e];
      [|reflexivity].
    now rewrite <- app_assoc.
Qed.

End Functional.

Lemma process_pdf_table (set_iter : list string -> list string)
  (images : list reply) (survey_length : Z) :
  (0 < survey_length)%Z ->
  process_pdf set_iter images survey_length
  = table_of set_iter images (Z.to_nat survey_length).
Proof.
  intros HL. unfold process_pdf, table_of.
  rewrite (py_range_step_pos _ _ HL).
  set (n := Z.to_nat survey_length). assert (Hn : 0 < n) by (unfold n; lia).
  cbn [pybind].
  destruct images as [|r l] eqn:Ei.
  { assert (Z0 : instances 0 n = 0) by (unfold instances; apply Nat.div_small; lia).
    cbn [List.length]. rewrite Z0. reflexivity. }
  rewrite <- Ei.
  assert (Hlen : 0 < List.length images) by (subst images; simpl; lia).
  pose proof (instances_pos _ _ Hn Hlen) as Hi.
  destruct (instances (List.length images) n) as [|m]; [lia|].
  rewrite <- cons_seq. cbn [map fold_result map_result].
  change (0 * n) with 0. rewrite survey_step_first_row.
  destruct (finalize_structure set_iter (first_survey_keys images n)) as [qs|e];
    [|reflexivity].
  destruct (row_of images n qs 0) as [row|e]; [|reflexivity].
  rewrite (fold_later_rows set_iter images n Hn qs m 1 _ Nat.lt_0_1).
  destruct (map_result (row_of images n qs) (seq 1 m)) as [more|e]; reflexivity.
Qed.

(** ** The shape of the table *)

Lemma row_cells_length (qs : list string) (survey_data : dict json) (cells : list json) :
  row_cells qs survey_data = Ok cells -> List.length cells = List.length qs.
Proof. apply map_result_length. Qed.

Lemma row_of_shape (images : list reply) (n : nat) (qs : list string) (k : nat)
  (row : list json) :
  row_of images n qs k = Ok row ->
  List.length row = S (List.length qs) /\ hd_error row = Some (JInt (Z.of_nat (k + 1))).
Proof.
  unfold row_of.
  destruct (row_cells qs _) as [cells|e] eqn:E; [|discriminate].
  intros H. injection H as <-. simpl.
  now rewrite (row_cells_length _ _ _ E).
Qed.

(** X4.  Whenever a run with a positive [survey_length] completes, the
    table is rectangular: there are as many rows as surveys, the last and
    short one included, every row has as many cells as the header has
    columns, and the row of survey [k] starts with the response id [k],
    counted from 1. *)
Theorem table_is_rectangular
  (set_iter : list string -> list string) (images : list reply)
  (survey_length : Z) (t : csv_table)
  (HL : (0 < survey_length)%Z)
  (Hrun : process_pdf set_iter images survey_length = Ok t) :
  List.length (rows t) = instances (List.length images) (Z.to_nat survey_length)
  /\ Forall (fun row => List.length row = List.length (header t)) (rows t)
  /\ (forall (k : nat) (row : list json),
        nth_error (rows t) k = Some row ->
        hd_error row = Some (JInt (Z.of_nat (k + 1)))).
Proof.
  rewrite (process_pdf_table _ _ _ HL) in Hrun. unfold table_of in Hrun.
  set (n := Z.to_nat survey_length) in *.
  destruct images as [|r l] eqn:Ei.
  - injection Hrun as <-. simpl.
    assert (Z0 : instances 0 n = 0).
    { unfold instances. apply Nat.div_small. unfold n. lia. }
    rewrite Z0. split; [reflexivity|]. split; [constructor|].
    intros k row H. destruct k; discriminate.
  - rewrite <- Ei in *.
    destruct (finalize_structure set_iter (first_survey_keys images n)) as [qs|e];
      [|discriminate].
    destruct (map_result (row_of images n qs) (seq 0 (instances (List.length images) n)))
      as [data|e] eqn:M; [|discriminate].
    injection Hrun as <-. cbn [rows header].
    pose proof (map_result_length _ _ _ M) as Len. rewrite length_seq in Len.
    split; [exact Len|]. split.
    + apply Forall_forall. intros row Hin.
      apply In_nth_error in Hin as [k Hk].
      assert (Hlt : k < instances (List.length images) n).
      { rewrite <- Len. apply nth_error_Some. congruence. }
      assert (Hs : nth_error (seq 0 (instances (List.length images) n)) k = Some k).
      { rewrite nth_error_seq. destruct (Nat.ltb_spec k (instances (List.length images) n));
          [reflexivity | lia]. }
      destruct (map_result_nth _ _ _ _ _ M Hs) as (row' & Hr & Hrow).
      rewrite Hk in Hr. injection Hr as <-.
      destruct (row_of_shape _ _ _ _ _ Hrow) as [L1 _]. simpl. exact L1.
    + intros k row Hk.
      assert (Hlt : k < instances (List.length images) n).
      { rewrite <- Len. apply nth_error_Some. congruence. }
      assert (Hs : nth_error (seq 0 (instances (List.length images) n)) k = Some k).
      { rewrite nth_error_seq. destruct (Nat.ltb_spec k (instances (List.length images) n));
          [reflexivity | lia]. }
      destruct (map_result_nth _ _ _ _ _ M Hs) as (row' & Hr & Hrow).
      rewrite Hk in Hr. injection Hr as <-.
      exact (proj2 (row_of_shape _ _ _ _ _ Hrow)).
Qed.

Lemma table_is_rectangular_witness :
  List.length (rows five_pages_table) = 3
  /\ Forall (fun row => List.length row = 2) (rows five_pages_table)
  /\ (forall (k : nat) (row : list json),
        nth_error (rows five_pages_table) k = Some row ->
        hd_error row = Some (JInt (Z.of_nat (k + 1)))).
Proof.
  refine (table_is_rectangular first_seen five_pages 2 five_pages_table _ _).
  - reflexivity.
  - vm_compute. reflexivity.
Defined.

(** ** When a run completes *)

Lemma map_result_ok_iff {A B : Type} (f : A -> pyresult B) (l : list A) :
  (exists r : list B, map_result f l = Ok r)
  <-> (forall x : A, In x l -> exists y : B, f x = Ok y).
Proof.
  induction l as [|a l IH]; simpl.
  - split; [intros _ x [] | intros _; now eexists].
  - split.
    + intros [r H] x [<-|Hin].
      * destruct (f a) as [b|e]; [now eexists | discriminate].
      * destruct (f a) as [b|e]; [|discriminate].
        destruct (map_result f l) as [ys|e]; [|discriminate].
        apply (proj1 IH); [now eexists | exact Hin].
    + intros H. destruct (H a (or_introl eq_refl)) as [b ->].
      destruct (proj2 IH (fun x Hx => H x (or_intror Hx))) as [ys ->].
      now eexists.
Qed.






(** ** A [survey_length] that is not positive *)

(** X6.  With [survey_length] zero, [range] raises [ValueError] and the
    run aborts before any page is processed; with a negative
    [survey_length] the loop is empty and the run completes with the
    header [response_id] and no row, whatever the document holds. *)
Theorem process_pdf_without_positive_length
  (set_iter : list string -> list string) (images : list reply) (survey_length : Z)
  (HL : (survey_length <= 0)%Z) :
  process_pdf set_iter images survey_length
  = if (survey_length =? 0)%Z
    then Raise (ValueError "range() arg 3 must not be zero")
    else Ok {| header := ["response_id"]; rows := [] |}.
Proof.
  unfold process_pdf, py_range_step.
  destruct (Z.eqb_spec survey_length 0); [reflexivity|].
  destruct (Z.ltb_spec survey_length 0); [reflexivity|lia].
Qed.

Lemma process_pdf_without_positive_length_witness :
  process_pdf first_seen five_pages (-2)
  = Ok {| header := ["response_id"]; rows := [] |}.
Proof.
  exact (process_pdf_without_positive_length first_seen five_pages (-2) ltac:(lia)).
Defined.

(** ** What [process_image_with_llm] returns and logs *)

Lemma process_image_text (text : string) (rest : list content_block)
  (log : list record) :
  process_image_with_llm (Message (TextBlock text :: rest)) log
  = let log1 := log ++ [(DEBUG, "Attempting to create message...");
                        (DEBUG, "Message created successfully.");
                        (INFO, ("Message content" ++ newline ++ "-----------------")%string);
                        (INFO, text)] in
    match extract_json_from_text text log1 with
    | (Ok (Some v), log2) =>
        if truthy v then (Ok (Some v), log2)
        else (Ok None, log2 ++ [(ERROR, "Failed to extract JSON data from the message")])
    | (Ok None, log2) =>
        (Ok None, log2 ++ [(ERROR, "Failed to extract JSON data from the message")])
    | (Raise e, log2) =>
        (Ok None, log2 ++ [(ERROR, ("An error occurred: " ++ exn_str e)%string)])
    end.
Proof.
  unfold process_image_with_llm, try_except, bind, lift, ret,
    logger_debug, logger_info, logger_error, logger_call.
  cbv zeta. rewrite <- !app_assoc. cbn [app].
  destruct (extract_json_from_text text _) as [[[v|]|e] log2]; try reflexivity.
  now destruct (truthy v).
Qed.

(** X7.  [process_image_with_llm] raises nothing, whatever the client
    does.  It returns data exactly when the first block of the message is
    a text whose span [json.loads] parses to a mapping that is not empty,
    and then returns that mapping: the blocks after the first are not
    read, and an empty object counts as a failure. *)
Theorem process_image_with_llm_value (r : reply) (log : list record) :
  (exists o : option json, fst (process_image_with_llm r log) = Ok o)
  /\ (forall v : json,
        fst (process_image_with_llm r log) = Ok (Some v)
        <-> exists (text : string) (rest : list content_block)
                   (span : string) (d : dict json),
              r = Message (TextBlock text :: rest)
              /\ re_search_braces text = Some span
              /\ json_loads span = Ok (JObj d)
              /\ d <> []
              /\ v = JObj d).
Proof.
  destruct r as [e | [|[text|type] rest]].
  - split; [now exists None|]. intros v. split.
    + intros H. discriminate H.
    + intros (text & rest & span & d & E & _). discriminate E.
  - split; [now exists None|]. intros v. split.
    + intros H. discriminate H.
    + intros (text & rest & span & d & E & _). discriminate E.
  - rewrite process_image_text. cbv zeta.
    match goal with
    | |- context [extract_json_from_text text ?l] =>
        destruct (extract_json_from_text_cases text l)
          as [log2 [H | (span & d & S & L & H)]]; rewrite H
    end.
    + split; [now exists None|]. intros v. split.
      * intros E. discriminate E.
      * intros (text' & rest' & span & d & E & S & L & _ & _).
        injection E as <- <-.
        assert (V : fst (extract_json_from_text text
                     (log ++ [(DEBUG, "Attempting to create message...");
                              (DEBUG, "Message created successfully.");
                              (INFO, ("Message content" ++ newline ++ "-----------------")%string);
                              (INFO, text)])) = Ok (Some (JObj d))).
        { now rewrite (extract_parsed _ _ _ _ S L). }
        rewrite H in V. discriminate V.
    + destruct d as [|kv d]; cbn [truthy fst].
      * split; [now exists None|]. intros v. split.
        -- intros E. discriminate E.
        -- intros (text' & rest' & span' & d' & E & S' & L' & Hne & _).
           injection E as <- <-. rewrite S in S'. injection S' as <-.
           rewrite L in L'. injection L' as <-. congruence.
      * split; [now eexists|]. intros v. split.
        -- intros E. injection E as <-.
           exists text, rest, span, (kv :: d). repeat split; try assumption.
           discriminate.
        -- intros (text' & rest' & span' & d' & E & S' & L' & _ & ->).
           injection E as <- <-. rewrite S in S'. injection S' as <-.
           rewrite L in L'. now injection L' as <-.
  - split; [now exists None|]. intros v. split.
    + intros H. discriminate H.
    + intros (text & rest' & span & d & E & _). discriminate E.
Qed.

Lemma extract_log_appended (text : string) (log : list record) :
  exists (o : option json) (new : list record),
    extract_json_from_text text log = (Ok o, log ++ new)
    /\ (o <> None -> new = [(DEBUG, "JSON successfully extracted and parsed")]).
Proof.
  destruct (re_search_braces text) as [span|] eqn:S.
  - destruct (json_loads span) as [v|e] eqn:L.
    + exists (Some v), [(DEBUG, "JSON successfully extracted and parsed")].
      split; [exact (extract_parsed _ _ _ log S L) | reflexivity].
    + destruct (is_decode_error_dec e) as [[m ->]|Hne].
      * exists None. eexists. split; [exact (extract_decode_error _ _ _ log S L)|].
        congruence.
      * exists None. eexists. split; [exact (extract_other_error _ _ _ log S L Hne)|].
        congruence.
  - exists None. eexists. split; [exact (extract_no_span _ log S) | congruence].
Qed.

(** X8.  [process_image_with_llm] only adds to the log, and no failure is
    silent: when it returns [None] the last record it wrote is an error
    record, and when it returns data it wrote no error record. *)
Theorem process_image_with_llm_logs (r : reply) (log : list record) :
  exists new : list record,
    snd (process_image_with_llm r log) = log ++ new
    /\ (fst (process_image_with_llm r log) = Ok None ->
        exists (before : list record) (msg : string),
          new = before ++ [(ERROR, msg)])
    /\ (forall v : json,
          fst (process_image_with_llm r log) = Ok (Some v) ->
          Forall (fun rec => fst rec <> ERROR) new).
Proof.
  destruct r as [e | [|[text|type] rest]].
  - exists [(DEBUG, "Attempting to create message...");
            (ERROR, ("An error occurred: " ++ exn_str e)%string)].
    split; [|split].
    + cbn. now rewrite <- app_assoc.
    + intros _. now exists [(DEBUG, "Attempting to create message...")], ("An error occurred: " ++ exn_str e)%string.
    + intros v H. discriminate H.
  - exists [(DEBUG, "Attempting to create message...");
            (DEBUG, "Message created successfully.");
            (ERROR, "Unexpected message content structure")].
    split; [|split].
    + cbn. now rewrite <- !app_assoc.
    + intros _. now exists [(DEBUG, "Attempting to create message...");
                             (DEBUG, "Message created successfully.")],
                            "Unexpected message content structure"%string.
    + intros v H. discriminate H.
  - rewrite process_image_text. cbv zeta.
    set (head := [(DEBUG, "Attempting to create message...");
                  (DEBUG, "Message created successfully.");
                  (INFO, ("Message content" ++ newline ++ "-----------------")%string);
                  (INFO, text)]).
    destruct (extract_log_appended text (log ++ head)) as (o & new & -> & Hnew).
    assert (Fail : forall data : list record,
               exists (before : list record) (msg : string),
                 head ++ data ++ [(ERROR, "Failed to extract JSON data from the message")]
                 = before ++ [(ERROR, msg)]).
    { intros data. exists (head ++ data), "Failed to extract JSON data from the message"%string.
      now rewrite <- app_assoc. }
    destruct o as [v|].
    + rewrite (Hnew ltac:(discriminate)). destruct (truthy v).
      * exists (head ++ [(DEBUG, "JSON successfully extracted and parsed")]).
        cbn [fst snd]. split; [now rewrite <- app_assoc|]. split.
        -- intros H. discriminate H.
        -- intros v' _. unfold head. repeat constructor; discriminate.
      * exists (head ++ [(DEBUG, "JSON successfully extracted and parsed")]
                  ++ [(ERROR, "Failed to extract JSON data from the message")]).
        cbn [fst snd]. split; [now rewrite <- !app_assoc|]. split.
        -- intros _. apply Fail.
        -- intros v' H. discriminate H.
    + exists (head ++ new ++ [(ERROR, "Failed to extract JSON data from the message")]).
      cbn [fst snd]. split; [now rewrite <- !app_assoc|]. split.
      * intros _. apply Fail.
      * intros v' H. discriminate H.
  - exists [(DEBUG, "Attempting to create message...");
            (DEBUG, "Message created successfully.");
            (ERROR, "First content item is not of type 'text'")].
    split; [|split].
    + cbn. now rewrite <- !app_assoc.
    + intros _. now exists [(DEBUG, "Attempting to create message...");
                             (DEBUG, "Message created successfully.")],
                            "First content item is not of type 'text'"%string.
    + intros v H. discriminate H.
Qed.

Lemma process_image_with_llm_value_witness :
  fst (process_image_with_llm
         (Message [TextBlock sample_object_text; OtherBlock "tool_use"]) [])
  = Ok (Some (JObj sample_object)).
Proof.
  apply (proj2 (proj2 (process_image_with_llm_value
                         (Message [TextBlock sample_object_text; OtherBlock "tool_use"]) [])
                  (JObj sample_object))).
  exists sample_object_text, [OtherBlock "tool_use"], sample_object_text, sample_object.
  repeat split; try (vm_compute; reflexivity). discriminate.
Defined.

Lemma process_image_with_llm_logs_witness :
  exists new : list record,
    snd (process_image_with_llm (text_page "{}") []) = [] ++ new
    /\ (fst (process_image_with_llm (text_page "{}") []) = Ok None ->
        exists (before : list record) (msg : string),
          new = before ++ [(ERROR, msg)])
    /\ (forall v : json,
          fst (process_image_with_llm (text_page "{}") []) = Ok (Some v) ->
          Forall (fun rec => fst rec <> ERROR) new).
Proof. exact (process_image_with_llm_logs (text_page "{}") []). Defined.

(** ** Extraction reads the span only *)

Lemma brace_span_self (text span : string) :
  brace_span text span -> brace_span span span.
Proof.
  intros (pre & mid & post & _ & _ & _ & ->).
  exists EmptyString, mid, EmptyString. now repeat split.
Qed.

(** X9.  What [extract_json_from_text] returns and logs depends on the
    text through its span alone: the text and its span, from the leftmost
    ['{'] to the rightmost ['}'], are extracted alike, so the content
    logged after a decode error reproduces the failure when it is
    extracted again. *)
Theorem extraction_reads_span_only (text span : string) (log : list record)
  (Hspan : re_search_braces text = Some span) :
  re_search_braces span = Some span
  /\ extract_json_from_text text log = extract_json_from_text span log.
Proof.
  assert (S : re_search_braces span = Some span).
  { apply re_search_braces_span, (brace_span_self text).
    now apply re_search_braces_span. }
  split; [exact S|].
  destruct (json_loads span) as [v|e] eqn:L.
  - now rewrite (extract_parsed _ _ _ log Hspan L), (extract_parsed _ _ _ log S L).
  - destruct (is_decode_error_dec e) as [[m ->]|Hne].
    + now rewrite (extract_decode_error _ _ _ log Hspan L),
        (extract_decode_error _ _ _ log S L).
    + now rewrite (extract_other_error _ _ _ log Hspan L Hne),
        (extract_other_error _ _ _ log S L Hne).
Qed.

Lemma extraction_reads_span_only_witness :
  re_search_braces "{x} and so on}" = Some "{x} and so on}"
  /\ extract_json_from_text "See {x} and so on} below" []
     = extract_json_from_text "{x} and so on}" [].
Proof.
  exact (extraction_reads_span_only "See {x} and so on} below" "{x} and so on}" []
           eq_refl).
Defined.

(** ** Identifiers whose key is computed *)

Lemma string_length_app (a b : string) :
  String.length (a ++ b)%string = String.length a + String.length b.
Proof. induction a as [|c a IH]; simpl; [reflexivity | now rewrite IH]. Qed.

(** The pieces [re.split] returns are made of the characters of the
    text, and none is longer than the text. *)
Lemma re_split_digits_from_bounded (P : ascii -> bool) (s : string) :
  forall (b : bool) (cur : string),
    forall_chars P cur = true ->
    forall_chars P s = true ->
    Forall (fun p => forall_chars P p = true
                     /\ String.length p <= String.length cur + String.length s)
      (re_split_digits_from b cur s).
Proof.
  induction s as [|c s IH]; intros b cur Hcur Hs; simpl.
  - destruct b; repeat constructor; simpl; try assumption; lia.
  - simpl in Hs. apply andb_true_iff in Hs as [Hc Hs].
    assert (Hone : forall_chars P (String c "") = true) by (simpl; now rewrite Hc).
    assert (Happ : forall_chars P (cur ++ String c "") = true)
      by (now rewrite forall_chars_app, Hcur, Hone).
    assert (Hgrow : Forall (fun p => forall_chars P p = true
                     /\ String.length p <= String.length cur + S (String.length s))
               (re_split_digits_from (re_digit c) (cur ++ String c "") s)).
    { eapply Forall_impl; [|exact (IH (re_digit c) _ Happ Hs)].
      intros p [Hp Hl]. split; [exact Hp|].
      rewrite string_length_app in Hl. simpl in Hl. lia. }
    assert (Hnew : Forall (fun p => forall_chars P p = true
                     /\ String.length p <= String.length cur + S (String.length s))
               (cur :: re_split_digits_from (re_digit c) (String c "") s)).
    { constructor; [split; [exact Hcur | lia]|].
      eapply Forall_impl; [|exact (IH (re_digit c) _ Hone Hs)].
      intros p [Hp Hl]. split; [exact Hp|]. simpl in Hl. lia. }
    destruct (re_digit c), b; assumption.
Qed.

Lemma plain_digits_int (p : string) :
  plain_digits p = true -> forall_chars char_isdigit p = true ->
  forall_chars re_digit p = true.
Proof.
  unfold plain_digits. induction p as [|c p IH]; simpl; [reflexivity|].
  intros H1 H2.
  apply andb_true_iff in H1 as [Hc Hp]. apply andb_true_iff in H2 as [Dc Dp].
  rewrite (IH Hp Dp), andb_true_r.
  rewrite Dc in Hc. exact Hc.
Qed.

Lemma key_of_plain_piece (p : string) :
  plain_digits p = true -> String.length p <= int_max_str_digits ->
  exists tok : token, key_of_piece p = Ok tok.
Proof.
  intros Hp Hl. unfold key_of_piece.
  destruct (str_isdigit p) eqn:E; [|now eexists].
  assert (D : forall_chars re_digit p = true).
  { apply plain_digits_int; [exact Hp|]. destruct p; [discriminate | exact E]. }
  unfold py_int. rewrite D.
  destruct (Nat.ltb_spec int_max_str_digits (String.length p)); [lia|].
  now eexists.
Qed.

Lemma natural_sort_key_plain (q : string) :
  plain_identifier q -> exists k : list token, natural_sort_key q = Ok k.
Proof.
  intros [Hp Hl]. unfold natural_sort_key.
  apply map_result_ok_iff. intros p Hin.
  pose proof (re_split_digits_from_bounded _ q false "" eq_refl Hp) as F.
  rewrite Forall_forall in F. destruct (F p Hin) as [Pp Lp]. simpl in Lp.
  apply key_of_plain_piece; [exact Pp | lia].
Qed.

(** X10.  The key of an identifier whose digits are all decimal (no
    superscript two, three or one) and which has at most 4300 characters
    is computed, so that [sorted(set(question_structure), key=natural_sort_key)]
    returns for every list of such identifiers, whatever the order of
    iteration over the set. *)
Theorem plain_identifiers_are_sorted
  (set_iter : list string -> list string) (question_structure : list string)
  (Hset : set_order set_iter)
  (Hplain : Forall plain_identifier question_structure) :
  keys_computed question_structure
  /\ exists qs : list string, finalize_structure set_iter question_structure = Ok qs.
Proof.
  assert (K : forall l : list string, Forall plain_identifier l -> keys_computed l).
  { intros l H. eapply Forall_impl; [|exact H].
    intros q Hq. now apply natural_sort_key_plain. }
  split; [now apply K|].
  unfold finalize_structure. apply py_sorted_natural_defined, K.
  apply Forall_forall. intros q Hq. rewrite Forall_forall in Hplain.
  apply Hplain. now apply (proj2 (Hset question_structure)).
Qed.

Lemma plain_identifiers_are_sorted_witness :
  keys_computed ["2"; "1_10"; "1_2"; "2"]
  /\ exists qs : list string,
       finalize_structure first_seen ["2"; "1_10"; "1_2"; "2"] = Ok qs.
Proof.
  apply (plain_identifiers_are_sorted first_seen ["2"; "1_10"; "1_2"; "2"]
           first_seen_set_order).
  repeat (apply Forall_cons;
          [split; [reflexivity | unfold int_max_str_digits; simpl; lia]|]).
  apply Forall_nil.
Defined.

(** ** The schema and the order of iteration over the set *)

Lemma sorted_permutation_eq {A : Type} (R : A -> A -> Prop) (l1 : list A) :
  (forall a b : A, In a l1 -> In b l1 -> R a b -> R b a -> a = b) ->
  StronglySorted R l1 ->
  forall l2 : list A, StronglySorted R l2 -> Permutation l1 l2 -> l1 = l2.
Proof.
  induction l1 as [|a l1 IH]; intros Anti S1 l2 S2 P.
  - symmetry. now apply Permutation_nil.
  - destruct l2 as [|b l2].
    + apply Permutation_sym, Permutation_nil in P. discriminate.
    + apply StronglySorted_inv in S1 as [S1 F1].
      apply StronglySorted_inv in S2 as [S2 F2].
      rewrite Forall_forall in F1, F2.
      assert (E : a = b).
      { assert (Ia : In a (b :: l2)) by (apply (Permutation_in a P); now left).
        assert (Ib : In b (a :: l1))
          by (apply (Permutation_in b (Permutation_sym P)); now left).
        destruct Ia as [->|Ia]; [reflexivity|].
        destruct Ib as [->|Ib]; [reflexivity|].
        apply Anti; [now left | now right | now apply F1 | now apply F2]. }
      subst b. f_equal. apply IH; [|exact S1|exact S2|].
      * intros x y Hx Hy. apply Anti; now right.
      * now apply Permutation_cons_inv with a.
Qed.

Lemma py_sorted_keys_computed (l r : list string) :
  py_sorted key_lt natural_sort_key l = Ok r -> keys_computed l.
Proof.
  unfold py_sorted. fold decorate.
  destruct (map_result decorate l) as [dec|e] eqn:D; [|discriminate].
  intros _. destruct (decorate_inv _ _ D) as [M F]. subst l.
  unfold keys_computed. apply Forall_map.
  eapply Forall_impl; [|exact F]. intros p Hp. now exists (fst p).
Qed.

Lemma natural_le_antisym_keys (a b : string) :
  natural_le a b -> natural_le b a -> natural_sort_key a = natural_sort_key b.
Proof.
  unfold natural_le, natural_lt. intros Hab Hba.
  destruct (natural_sort_key a) as [ka|e] eqn:Ka; [|discriminate].
  destruct (natural_sort_key b) as [kb|e] eqn:Kb; [|discriminate].
  simpl in Hab, Hba.
  destruct (key_lt_trichotomy _ _ (natural_sort_key_shape _ _ Ka)
              _ (natural_sort_key_shape _ _ Kb)) as [[H _]|[(-> & _)|[H _]]];
    [congruence | reflexivity | congruence].
Qed.

(** X11.  When no two identifiers of the first survey have the same
    key, the schema depends on the set of identifiers alone: neither the
    order in which the pages brought them, nor the order of iteration
    over the set, changes the result of
    [sorted(set(question_structure), key=natural_sort_key)]. *)
Theorem schema_independent_of_order
  (set_iter set_iter' : list string -> list string)
  (question_structure question_structure' qs : list string)
  (Hset : set_order set_iter) (Hset' : set_order set_iter')
  (Hsame : forall q : string, In q question_structure <-> In q question_structure')
  (Hinj : forall a b : string,
      In a question_structure -> In b question_structure ->
      natural_sort_key a = natural_sort_key b -> a = b)
  (Hrun : finalize_structure set_iter question_structure = Ok qs) :
  finalize_structure set_iter' question_structure' = Ok qs.
Proof.
  unfold finalize_structure in *.
  destruct (Hset question_structure) as [N I].
  destruct (Hset' question_structure') as [N' I'].
  destruct (py_sorted_natural_inv _ _ Hrun) as [P S].
  pose proof (py_sorted_keys_computed _ _ Hrun) as K.
  assert (K' : keys_computed (set_iter' question_structure')).
  { unfold keys_computed in *. rewrite Forall_forall in *.
    intros q Hq. apply K, I, Hsame, I', Hq. }
  destruct (py_sorted_natural_defined _ K') as [qs' Hrun'].
  destruct (py_sorted_natural_inv _ _ Hrun') as [P' S'].
  rewrite Hrun'. f_equal. symmetry.
  apply (sorted_permutation_eq natural_le); [|exact S|exact S'|].
  - intros a b Ha Hb Hab Hba.
    apply Hinj; [| |now apply natural_le_antisym_keys].
    + apply I. exact (Permutation_in a P Ha).
    + apply I. exact (Permutation_in b P Hb).
  - rewrite P, P'. apply NoDup_Permutation; [exact N|exact N'|].
    intros q. rewrite I, I'. apply Hsame.
Qed.

Lemma last_seen_set_order : set_order last_seen.
Proof.
  intros l. unfold last_seen. split.
  - apply NoDup_rev, NoDup_nodup.
  - intros x. rewrite <- in_rev. apply nodup_In.
Qed.

Lemma schema_independent_of_order_witness :
  finalize_structure last_seen ["1_2"; "2"; "1_10"; "2"] = Ok ["1_2"; "1_10"; "2"].
Proof.
  apply (schema_independent_of_order first_seen last_seen
           ["2"; "1_10"; "1_2"; "2"] ["1_2"; "2"; "1_10"; "2"] ["1_2"; "1_10"; "2"]
           first_seen_set_order last_seen_set_order).
  - intros q. simpl. tauto.
  - intros a b Ha Hb.
    simpl in Ha, Hb.
    destruct Ha as [<-|[<-|[<-|[<-|[]]]]], Hb as [<-|[<-|[<-|[<-|[]]]]];
      vm_compute; congruence.
  - vm_compute. reflexivity.
Defined.

(** Identifiers that share a key keep the order of iteration over the
    set: the hypothesis on the keys cannot be dropped. *)
Lemma tied_identifiers_follow_set_order :
  finalize_structure first_seen ["1"; "01"] = Ok ["1"; "01"]
  /\ finalize_structure last_seen ["1"; "01"] = Ok ["01"; "1"].
Proof. split; vm_compute; reflexivity. Qed.

(** ** Digit runs compare by value *)

Lemma re_split_digits_run_tail (r : string) (d cur : string) :
  forall_chars re_digit d = true ->
  starts_with_digit r = false ->
  re_split_digits_from true cur (d ++ r) = (cur ++ d)%string :: re_split_digits r.
Proof.
  intros Hd Hr. revert cur Hd.
  induction d as [|c d IH]; intros cur Hd; simpl.
  - rewrite append_nil_r. destruct r as [|c r]; [reflexivity|].
    simpl in Hr. unfold re_split_digits. simpl. now rewrite Hr.
  - simpl in Hd. apply andb_true_iff in Hd as [Hc Hd]. rewrite Hc.
    rewrite (IH _ Hd), append_assoc. reflexivity.
Qed.

Lemma re_split_digits_run (r d cur : string) :
  digit_run d ->
  starts_with_digit r = false ->
  re_split_digits_from false cur (d ++ r) = cur :: d :: re_split_digits r.
Proof.
  intros [Hne Hd] Hr. destruct d as [|c d]; [congruence|].
  simpl in Hd. apply andb_true_iff in Hd as [Hc Hd].
  simpl. rewrite Hc. now rewrite (re_split_digits_run_tail _ _ _ Hd Hr).
Qed.

(** [re.split] on a text cut before a digit run that is whole: the
    pieces of what is before the run, the run, the pieces of what is
    after it. *)
Lemma re_split_digits_from_cut (d r p : string) :
  digit_run d ->
  starts_with_digit r = false ->
  forall (b : bool) (cur : string),
    ends_with_digit p = false ->
    (p = EmptyString -> b = false) ->
    re_split_digits_from b cur (p ++ d ++ r)
    = re_split_digits_from b cur p ++ d :: re_split_digits r.
Proof.
  intros Hd Hr. induction p as [|c p IH]; intros b cur Hp Hb.
  - rewrite (Hb eq_refl). simpl. now apply re_split_digits_run.
  - assert (Hp' : ends_with_digit p = false).
    { destruct p; [reflexivity | exact Hp]. }
    assert (Hb' : p = EmptyString -> re_digit c = false).
    { intros ->. exact Hp. }
    simpl. destruct (re_digit c) eqn:Ec.
    + destruct b.
      * apply IH; [exact Hp' | exact Hb'].
      * simpl. f_equal. apply IH; [exact Hp' | exact Hb'].
    + destruct b.
      * simpl. f_equal. apply IH; [exact Hp' | exact Hb'].
      * apply IH; [exact Hp' | exact Hb'].
Qed.

Lemma re_split_digits_cut (p d r : string) :
  ends_with_digit p = false -> digit_run d -> starts_with_digit r = false ->
  re_split_digits (p ++ d ++ r) = re_split_digits p ++ d :: re_split_digits r.
Proof.
  intros Hp Hd Hr. unfold re_split_digits.
  now apply re_split_digits_from_cut.
Qed.

Lemma map_result_app {A B : Type} (f : A -> pyresult B) (l1 l2 : list A) (r : list B) :
  map_result f (l1 ++ l2) = Ok r ->
  exists r1 r2 : list B,
    map_result f l1 = Ok r1 /\ map_result f l2 = Ok r2 /\ r = r1 ++ r2.
Proof.
  revert r. induction l1 as [|a l1 IH]; intros r; simpl.
  - intros H. now exists [], r.
  - destruct (f a) as [b|e]; [|discriminate].
    destruct (map_result f (l1 ++ l2)) as [ys|e]; [|discriminate].
    intros H. injection H as <-.
    destruct (IH ys eq_refl) as (r1 & r2 & -> & -> & ->).
    now exists (b :: r1), r2.
Qed.

Lemma key_lt_common_prefix (k a b : list token) :
  key_lt (k ++ a) (k ++ b) = key_lt a b.
Proof.
  induction k as [|x k IH]; simpl; [reflexivity|].
  now rewrite token_eq_refl.
Qed.

Lemma natural_sort_key_cut (p d r : string) (k : list token) :
  ends_with_digit p = false -> digit_run d -> starts_with_digit r = false ->
  natural_sort_key (p ++ d ++ r) = Ok k ->
  exists kp kr : list token,
    natural_sort_key p = Ok kp /\ natural_sort_key r = Ok kr
    /\ k = kp ++ TInt (int_of_digits 0 d) :: kr.
Proof.
  intros Hp Hd Hr. unfold natural_sort_key.
  rewrite (re_split_digits_cut _ _ _ Hp Hd Hr). intros H.
  destruct (map_result_app _ _ _ _ H) as (kp & k2 & Kp & K2 & ->).
  simpl in K2.
  destruct (key_of_piece d) as [tok|e] eqn:Kd; [|discriminate].
  destruct (map_result key_of_piece (re_split_digits r)) as [kr|e]; [|discriminate].
  injection K2 as <-. exists kp, kr. repeat split; [exact Kp|].
  f_equal. f_equal.
  unfold key_of_piece in Kd. destruct Hd as [Hne Hd].
  assert (E : str_isdigit d = true).
  { destruct d; [congruence|]. now apply re_digit_isdigit. }
  rewrite E in Kd. unfold py_int in Kd. rewrite Hd in Kd.
  destruct (Nat.ltb int_max_str_digits (String.length d)); [discriminate|].
  now injection Kd.
Qed.

(** X12.  Two identifiers that agree up to the start of a digit run are
    ordered by the numbers the two runs write, whatever their lengths and
    leading zeros; when the numbers are equal, by what follows the
    runs. *)
Theorem digit_runs_compare_by_value (p d1 d2 r1 r2 : string)
  (Hp : ends_with_digit p = false)
  (Hd1 : digit_run d1) (Hd2 : digit_run d2)
  (Hr1 : starts_with_digit r1 = false) (Hr2 : starts_with_digit r2 = false)
  (Hk1 : exists k : list token, natural_sort_key (p ++ d1 ++ r1) = Ok k)
  (Hk2 : exists k : list token, natural_sort_key (p ++ d2 ++ r2) = Ok k) :
  natural_lt (p ++ d1 ++ r1) (p ++ d2 ++ r2)
  = if (int_of_digits 0 d1 =? int_of_digits 0 d2)%Z
    then natural_lt r1 r2
    else Ok (int_of_digits 0 d1 <? int_of_digits 0 d2)%Z.
Proof.
  destruct Hk1 as [k1 K1], Hk2 as [k2 K2].
  destruct (natural_sort_key_cut _ _ _ _ Hp Hd1 Hr1 K1) as (kp & kr1 & Kp & Kr1 & ->).
  destruct (natural_sort_key_cut _ _ _ _ Hp Hd2 Hr2 K2) as (kp' & kr2 & Kp' & Kr2 & ->).
  assert (kp' = kp) by congruence. subst kp'.
  rewrite (natural_lt_keys _ _ _ _ K1 K2), (natural_lt_keys _ _ _ _ Kr1 Kr2).
  rewrite key_lt_common_prefix. reflexivity.
Qed.

Lemma digit_runs_compare_by_value_witness :
  natural_lt "1_2" "1_010b" = Ok true.
Proof.
  apply (digit_runs_compare_by_value "1_" "2" "010" "" "b").
  - reflexivity.
  - split; [discriminate | reflexivity].
  - split; [discriminate | reflexivity].
  - reflexivity.
  - reflexivity.
  - exists [TStr ""; TInt 1; TStr "_"; TInt 2; TStr ""]. vm_compute. reflexivity.
  - exists [TStr ""; TInt 1; TStr "_"; TInt 10; TStr "b"]. vm_compute. reflexivity.
Defined.

(** ** What the log shows of the API key *)

Lemma py_slice_to_all (n : nat) (s : string) :
  String.length s <= n -> py_slice_to n s = s.
Proof.
  revert n. induction s as [|c s IH]; intros [|n] H; simpl in *;
    try reflexivity; [lia|].
  rewrite IH; [reflexivity | lia].
Qed.

Lemma py_slice_to_app (a x : string) : py_slice_to (String.length a) (a ++ x) = a.
Proof. induction a as [|c a IH]; simpl; [now destruct x | now rewrite IH]. Qed.

Lemma py_slice_from_app (a x : string) : py_slice_from (String.length a) (a ++ x) = x.
Proof. induction a as [|c a IH]; simpl; [now destruct x | exact IH]. Qed.

Lemma py_slice_last_app (x b : string) :
  py_slice_last (String.length b) (x ++ b) = b.
Proof.
  unfold py_slice_last. rewrite string_length_app.
  replace (String.length x + String.length b - String.length b)
    with (String.length x) by lia.
  apply py_slice_from_app.
Qed.

Lemma main_with_key {A : Type} (api_key : string) (rest : string -> logged A)
  (log : list record) :
  api_key <> EmptyString ->
  main (Some api_key) rest log
  = rest api_key
      (log ++ [(INFO, ("Using API key: " ++ py_slice_to 4 api_key ++ "..."
                         ++ py_slice_last 4 api_key)%string)]).
Proof. intros H. destruct api_key; [congruence | reflexivity]. Qed.

Lemma short_key_shown (k k' : string) :
  String.length k = String.length k' ->
  String.length k <= 8 ->
  (py_slice_to 4 k ++ "..." ++ py_slice_last 4 k)%string
  = (py_slice_to 4 k' ++ "..." ++ py_slice_last 4 k')%string ->
  k = k'.
Proof.
  intros Hlen H8 H.
  do 9 (try (destruct k as [|? k])); simpl in H8; try lia;
    do 9 (try (destruct k' as [|? k'])); simpl in Hlen; try discriminate;
    cbn in H; congruence.
Qed.

(** X13.  The record that [main] logs of the API key shows the key in
    full, twice, when it has at most four characters; it tells apart any
    two keys of the same length of at most eight characters, so that such a key is read
    off the log; and of a longer key it shows the first four and the last
    four characters, and nothing of what is between them. *)
Theorem api_key_in_log (log : list record) :
  (forall k : string,
      k <> EmptyString -> String.length k <= 4 ->
      api_key_log k log = log ++ [(INFO, ("Using API key: " ++ k ++ "..." ++ k)%string)])
  /\ (forall k k' : string,
        k <> EmptyString -> k' <> EmptyString ->
        String.length k = String.length k' -> String.length k <= 8 ->
        api_key_log k log = api_key_log k' log -> k = k')
  /\ (forall a mid b : string,
        String.length a = 4 -> String.length b = 4 ->
        api_key_log (a ++ mid ++ b) log
        = log ++ [(INFO, ("Using API key: " ++ a ++ "..." ++ b)%string)]).
Proof.
  unfold api_key_log. split; [|split].
  - intros k Hne H4. rewrite (main_with_key _ _ _ Hne). unfold ret. cbn [snd].
    rewrite (py_slice_to_all 4 k H4). unfold py_slice_last.
    replace (String.length k - 4) with 0 by lia.
    now destruct k.
  - intros k k' Hne Hne' Hlen H8.
    rewrite (main_with_key _ _ _ Hne), (main_with_key _ _ _ Hne'). unfold ret. cbn [snd].
    intros H. apply app_inv_head in H. injection H as H.
    exact (short_key_shown k k' Hlen H8 H).
  - intros a mid b Ha Hb.
    assert (Hne : (a ++ mid ++ b)%string <> EmptyString).
    { destruct a; [discriminate Ha | discriminate]. }
    rewrite (main_with_key _ _ _ Hne). unfold ret. cbn [snd].
    assert (E1 : py_slice_to 4 (a ++ mid ++ b) = a)
      by (rewrite <- Ha; apply py_slice_to_app).
    assert (E2 : py_slice_last 4 (a ++ mid ++ b) = b)
      by (rewrite <- Hb, <- append_assoc; apply py_slice_last_app).
    now rewrite E1, E2.
Qed.

Lemma api_key_in_log_witness :
  api_key_log "key" [] = [(INFO, "Using API key: key...key")]
  /\ api_key_log "sk-ant-0123456789-wxyz" [] = [(INFO, "Using API key: sk-a...wxyz")].
Proof.
  split.
  - apply (proj1 (api_key_in_log []) "key"); [discriminate | simpl; lia].
  - apply (proj2 (proj2 (api_key_in_log [])) "sk-a" "nt-0123456789-" "wxyz");
      reflexivity.
Defined.
